(** * AwsLambdaHandlerBuilder: a shallow embedding of
      [src/builder/AwsLambdaHandlerBuilder.ts]

    The handler built by [awsLambdaHandlerBuilder] is modelled as a pure
    function from the builder configuration, the handler configuration, the
    API Gateway event and the Lambda context to the response, together with
    the trace of the externally visible steps it performed (validation,
    reflection, stage invocations).

    JavaScript values are a small tree type that keeps [undefined] and [null]
    apart; thrown values carry their class so that [instanceof] can be
    decided; promises and observables are represented by the notification
    they deliver to the pipeline. *)

From stdpp Require Import base option list strings gmap pretty.
From Stdlib Require Import ZArith NArith Ascii String Bool Lia Sorted.

Open Scope string_scope.
Open Scope list_scope.

(** ** String helpers ([split], [join], [includes]) *)

Module Str.

(** [s.split(sep)] for a one-character separator. *)
Fixpoint split (sep : ascii) (s : string) : list string :=
  match s with
  | EmptyString => [EmptyString]
  | String c rest =>
      if Ascii.eqb c sep then EmptyString :: split sep rest
      else match split sep rest with
           | [] => [String c EmptyString]
           | piece :: pieces => String c piece :: pieces
           end
  end.

(** [parts.join(sep)]. *)
Fixpoint join (sep : string) (parts : list string) : string :=
  match parts with
  | [] => EmptyString
  | [p] => p
  | p :: rest => p +:+ sep +:+ join sep rest
  end.

(** [hay.includes(needle)]. *)
Fixpoint includes (needle hay : string) : bool :=
  String.prefix needle hay
  || match hay with
     | EmptyString => false
     | String _ rest => includes needle rest
     end.

(** A string is truthy when it is not empty. *)
Definition nonempty (s : string) : bool :=
  match s with EmptyString => false | _ => true end.

Definition lower_ascii (c : ascii) : ascii :=
  let n := nat_of_ascii c in
  if (65 <=? n)%nat && (n <=? 90)%nat then ascii_of_nat (n + 32) else c.

(** ASCII lower-casing, used only to phrase case-insensitive header names. *)
Fixpoint lower (s : string) : string :=
  match s with
  | EmptyString => EmptyString
  | String c rest => String (lower_ascii c) (lower rest)
  end.

End Str.

(** ** JavaScript values

    Numbers are the integers, which is all the handler produces itself
    (status codes).  A [JsNumber n] stands for the double of that value,
    which exists and prints as the digits of [n] when [n] is a safe integer
    ([safe_integers] below); statements about the text of a value that a
    stage or a reflector supplies are made for such values. *)

#[warnings="-register-all"]
Inductive JsValue : Type :=
| JsUndefined
| JsNull
| JsBool (b : bool)
| JsNumber (n : Z)
| JsString (s : string)
| JsArray (items : list JsValue)
| JsObject (fields : list (string * JsValue)).

(** A plain object: own enumerable string-keyed properties in insertion order. *)
Abbreviation JsFields := (list (string * JsValue)).

Definition is_undefined (v : JsValue) : bool :=
  match v with JsUndefined => true | _ => false end.

(** [v ?? d] *)
Definition nullish (v d : JsValue) : JsValue :=
  match v with
  | JsUndefined | JsNull => d
  | _ => v
  end.

(** JavaScript truthiness. *)
Definition truthy (v : JsValue) : bool :=
  match v with
  | JsUndefined | JsNull => false
  | JsBool b => b
  | JsNumber n => negb (n =? 0)%Z
  | JsString s => Str.nonempty s
  | JsArray _ | JsObject _ => true
  end.

(** [obj[name]] on a plain object; an absent property reads as [undefined]. *)
Fixpoint get_property (name : string) (fields : JsFields) : JsValue :=
  match fields with
  | [] => JsUndefined
  | (k, v) :: rest => if String.eqb k name then v else get_property name rest
  end.

(** Every number in the value is a safe integer: at most [2^53 - 1] in
    magnitude ([Number.MAX_SAFE_INTEGER]). *)
Fixpoint safe_integers (v : JsValue) : bool :=
  match v with
  | JsNumber n => (Z.abs n <=? 9007199254740991)%Z
  | JsArray items =>
      (fix all (vs : list JsValue) : bool :=
         match vs with
         | [] => true
         | x :: rest => safe_integers x && all rest
         end) items
  | JsObject fields =>
      (fix all (fs : list (string * JsValue)) : bool :=
         match fs with
         | [] => true
         | (_, x) :: rest => safe_integers x && all rest
         end) fields
  | _ => true
  end.

(** ** [JSON.stringify] on the value tree *)

Module Json.

Definition backslash : ascii := ascii_of_nat 92.
Definition dquote : string := String (ascii_of_nat 34) EmptyString.

Definition hex_digit (n : nat) : ascii :=
  ascii_of_nat (if (n <? 10)%nat then 48 + n else 87 + n).

Definition escape_char (c : ascii) : string :=
  let n := nat_of_ascii c in
  if (n =? 34)%nat then String backslash dquote
  else if (n =? 92)%nat then String backslash (String backslash EmptyString)
  else if (n =? 8)%nat then "\b"
  else if (n =? 12)%nat then "\f"
  else if (n =? 10)%nat then "\n"
  else if (n =? 13)%nat then "\r"
  else if (n =? 9)%nat then "\t"
  else if (n <? 32)%nat then
    "\u00" +:+ String (hex_digit (n / 16)) (String (hex_digit (n mod 16)) EmptyString)
  else String c EmptyString.

Fixpoint escape (s : string) : string :=
  match s with
  | EmptyString => EmptyString
  | String c rest => escape_char c +:+ escape rest
  end.

Definition quote (s : string) : string := dquote +:+ escape s +:+ dquote.

(** Text of a value in a position where it is printed; [undefined] inside
    an array prints as [null], a property whose value is [undefined] is
    left out of its object.  A number is printed with its digits, which is
    what [JSON.stringify] prints for a safe integer (beyond [2^53] a double
    is rounded, and from [10^21] on it is printed with an exponent). *)
Fixpoint render (v : JsValue) : string :=
  match v with
  | JsUndefined | JsNull => "null"
  | JsBool true => "true"
  | JsBool false => "false"
  | JsNumber n => pretty n
  | JsString s => quote s
  | JsArray items => "[" +:+ Str.join "," (map render items) +:+ "]"
  | JsObject fields =>
      "{" +:+ Str.join ","
               ((fix members (fs : list (string * JsValue)) : list string :=
                   match fs with
                   | [] => []
                   | (k, x) :: rest =>
                       if is_undefined x then members rest
                       else (quote k +:+ ":" +:+ render x) :: members rest
                   end) fields)
          +:+ "}"
  end.

(** [JSON.stringify(v)]: [undefined] at the top level yields [undefined]. *)
Definition stringify (v : JsValue) : option string :=
  match v with
  | JsUndefined => None
  | _ => Some (render v)
  end.

End Json.

(** [Buffer.byteLength(s)] for a byte string. *)
Definition byteLength (s : string) : N := N.of_nat (String.length s).

(** ** Origin policy *)

(** [validateOrigin(requestOrigin, whitelist)] *)
Definition validateOrigin (requestOrigin : option string)
                          (whitelist : option (list string)) : string :=
  match whitelist, requestOrigin with
  | None, _ => "*"
  | Some _, None => "*"
  | Some allowed, Some origin =>
      if negb (Str.nonempty origin) then "*"
      else if bool_decide (origin ∈ allowed) then origin else "null"
  end.


(** ** Error classes and thrown values *)

(** The error classes the handler tests with [instanceof].  Every class
    descends from the built-in [Error] ([BaseError]); a class declared by
    the user of the library names its superclass.  The classes imported
    from [@denis_bruns/core] and [rxjs] are taken to extend [Error]
    directly. *)
Inductive ErrorClass : Type :=
| BaseError
| SchemaValidationError
| RequestTimeoutError
| PayloadTooLargeError
| EmptyError
| TypeError
| SyntaxError
| CustomError (name : string) (super : ErrorClass).

#[global] Instance ErrorClass_eq_dec : EqDecision ErrorClass.
Proof. solve_decision. Defined.

(** The prototype chain of a class, most specific first. *)
Fixpoint ancestry (c : ErrorClass) : list ErrorClass :=
  c :: match c with
       | BaseError => []
       | CustomError _ super => ancestry super
       | _ => [BaseError]
       end.

(** An instance of [Error].  [error_errors] is the [errors] property, which
    only a [SchemaValidationError] is built with. *)
Record JsError : Type := {
  error_class : ErrorClass;
  error_message : string;
  error_errors : option (list JsFields)
}.

(** Anything a [throw] or a rejected promise can carry. *)
Inductive Thrown : Type :=
| ThrownError (e : JsError)
| ThrownValue (v : JsValue).

(** [error instanceof errorType] *)
Definition instanceOf (error : Thrown) (errorType : ErrorClass) : bool :=
  match error with
  | ThrownError e => bool_decide (errorType ∈ ancestry (error_class e))
  | ThrownValue _ => false
  end.

(** [new Error(message)] *)
Definition new_Error (message : string) : JsError :=
  {| error_class := BaseError; error_message := message; error_errors := None |}.

(** Modelled from the spec: the class [SchemaValidationError] of the package
    [@denis_bruns/core], of which only the import is in the source.  The
    spec's data model says that it carries the message and the list of
    field-level findings it is constructed with. *)
Definition new_SchemaValidationError (message : string)
                                     (errors : list JsFields) : JsError :=
  {| error_class := SchemaValidationError;
     error_message := message;
     error_errors := Some errors |}.

(** Outcome of an evaluation that may throw. *)
Inductive Completion (A : Type) : Type :=
| Normal (a : A)
| Throw (e : Thrown).
Arguments Normal {A} a.
Arguments Throw {A} e.

(** ** Validation findings: [formatErrors] and [validate] *)

(** The fields of [error.params] that [formatErrors] reads.  Of the
    constituent errors of an [errorMessage] finding only the keyword is
    read, so [params_errors] lists those keywords. *)
Record ErrorParams : Type := {
  missingProperty : option string;
  additionalProperty : option string;
  format : option string;
  params_errors : option (list string)
}.

(** An [ErrorObject] of the schema validator. *)
Record ErrorObject : Type := {
  instancePath : string;
  schemaPath : string;
  keyword : string;
  params : ErrorParams;
  message : option string;
  schema : JsValue
}.

(** Truthiness of an optional string property. *)
Definition truthy_str (s : option string) : bool :=
  match s with
  | Some s => Str.nonempty s
  | None => false
  end.

Definition str_or_empty (s : option string) : string :=
  match s with Some s => s | None => EmptyString end.

(** [error.instancePath.split('/').filter(Boolean)] *)
Definition pathSegments (error : ErrorObject) : list string :=
  List.filter Str.nonempty (Str.split "/" (instancePath error)).

(** The [key] computed for one validator error (lines 66-79). *)
Definition error_key (error : ErrorObject) : string :=
  let segments := pathSegments error in
  if (0 <? List.length segments)%nat then Str.join "." segments
  else if truthy_str (missingProperty (params error)) then
    let parentPath := Str.join "." segments in
    if Str.nonempty parentPath
    then parentPath +:+ "." +:+ str_or_empty (missingProperty (params error))
    else str_or_empty (missingProperty (params error))
  else if truthy_str (additionalProperty (params error)) then
    let parentPath := Str.join "." segments in
    if Str.nonempty parentPath
    then parentPath +:+ "." +:+ str_or_empty (additionalProperty (params error))
    else str_or_empty (additionalProperty (params error))
  else if truthy_str (format (params error)) then
    if (0 <? List.length segments)%nat then Str.join "." segments
    else str_or_empty (format (params error))
  else "generic".

(** A finding [{key, message}] as the object [formatErrors] pushes. *)
Definition finding (key : string) (msg : JsValue) : JsFields :=
  [("key", JsString key); ("message", msg)].

(** The findings pushed for one validator error (lines 81-98).  The schema
    of an [errorMessage] finding is a text or an object from keyword to
    message; only an object has a property named after a keyword. *)
Definition error_findings (error : ErrorObject) : list JsFields :=
  let key := error_key error in
  match String.eqb (keyword error) "errorMessage", params_errors (params error) with
  | true, Some errs =>
      flat_map
        (fun err_keyword =>
           match schema error with
           | JsObject fields =>
               let msg := get_property err_keyword fields in
               if truthy msg then [finding key msg] else []
           | _ => []
           end)
        errs
  | _, _ =>
      match message error with
      | Some m => if Str.nonempty m then [finding key (JsString m)] else []
      | None => []
      end
  end.

(** [formatErrors(errors)] *)
Definition formatErrors (errors : option (list ErrorObject)) : list JsFields :=
  match errors with
  | None => []
  | Some errors => flat_map error_findings errors
  end.

(** What running a compiled validator on a value reports: the boolean it
    returns and its [errors] property afterwards. *)
Record ValidatorRun : Type := {
  valid : bool;
  validator_errors : option (list ErrorObject)
}.

(** ** Objects with integer keys: the error mapping *)

(** [Record<number, V>] for status codes.  JavaScript enumerates the
    integer-like keys of an object in ascending numeric order, whatever the
    order in which they were written; the table is therefore kept sorted by
    key, and [Object.entries] is the list itself.  Keys are HTTP status
    codes, that is array-index-like naturals: below [2^32 - 1], where the
    enumeration is by value (a larger key would be enumerated after them, in
    the order written). *)
Module IntKeyed.
Section WithValue.
Context {V : Type}.

(** [obj[k] = v] *)
Fixpoint set (k : N) (v : V) (obj : list (N * V)) : list (N * V) :=
  match obj with
  | [] => [(k, v)]
  | (k', v') :: rest =>
      if (k =? k')%N then (k, v) :: rest
      else if (k <? k')%N then (k, v) :: (k', v') :: rest
      else (k', v') :: set k v rest
  end.

(** [obj[k]] *)
Fixpoint get (k : N) (obj : list (N * V)) : option V :=
  match obj with
  | [] => None
  | (k', v') :: rest => if (k =? k')%N then Some v' else get k rest
  end.

(** The object denoted by a literal [{k1: v1, k2: v2, ...}]. *)
Definition of_literal (entries : list (N * V)) : list (N * V) :=
  fold_left (fun obj kv => set (fst kv) (snd kv) obj) entries [].

End WithValue.
End IntKeyed.

(** ** Requests, responses and configuration *)

Record APIGatewayProxyEvent : Type := {
  httpMethod : string;
  headers : gmap string string;
  body : option string
}.

Record Context : Type := {
  awsRequestId : string
}.

Record APIGatewayProxyResult : Type := {
  statusCode : N;
  result_headers : gmap string string;
  result_body : string
}.

(** ** Handler stages *)

(** What a promise delivers to the pipeline.  [Pending] stands for a promise
    that has not settled when the deadline timer of the pipeline fires:
    whether an asynchronous result arrives in time is decided by the
    environment, not by the handler. *)
Inductive Promise : Type :=
| Resolves (v : JsValue)
| Rejects (e : Thrown)
| Pending.

(** How an observable ends after the values it emitted; [Silent] is an
    observable that sends no further notification before the deadline. *)
Inductive Terminal : Type :=
| Completes
| Errors (e : Thrown)
| Silent.

Record Observable : Type := {
  emitted : list JsValue;
  terminal : Terminal
}.

(** What [handler.execute(query)] returns. *)
Inductive ExecuteResult : Type :=
| Returns (v : JsValue)
| ReturnsPromise (p : Promise)
| ReturnsObservable (o : Observable).

(** [IUseCase]: the executable a stage factory creates. *)
Record IUseCase : Type := {
  execute : JsValue -> Completion ExecuteResult
}.

(** [IUseCaseInlineFunc]: a stage factory [(query, context) => IUseCase]. *)
Definition IUseCaseInlineFunc : Type :=
  JsValue -> APIGatewayProxyEvent -> Completion IUseCase.

(** [HandlerBuilderConfig] *)
Record HandlerBuilderConfig : Type := {
  maxResponseSize : option N;
  allowedMethods : option (list string);
  config_headers : option (gmap string string);
  corsOriginWhitelist : option (list string)
}.

(** The configuration of one handler.  A reflector is given together with
    the external [reflect] function applied to it: a function from the
    source to the reflected object, which may throw.
    [errorToStatusCodeMapping] lists the entries of the object as written. *)
Record HandlerConfig : Type := {
  handlers : list IUseCaseInlineFunc;
  initialBodyReflector : option (JsValue -> Completion JsFields);
  initialQueryReflector : option (APIGatewayProxyEvent -> Completion JsFields);
  errorToStatusCodeMapping : option (list (N * list ErrorClass));
  bodySchema : option JsValue;
  timeoutMs : option N
}.

(** The parts of the runtime and of the imported packages the handler calls
    but does not define. *)
Record Runtime : Type := {
  JSON_parse : string -> Completion JsValue;
  ajv_compile : JsValue -> Completion (JsValue -> ValidatorRun);
  RequestTimeoutError_message : string;
  PayloadTooLargeError_message : string;
  byteLength_TypeError_message : string
}.

Definition DEFAULT_MAX_RESPONSE_SIZE : N := 6 * 1024 * 1024.
Definition DEFAULT_TIMEOUT : N := 29000.
Definition DEFAULT_ALLOWED_METHODS : list string :=
  ["GET"; "POST"; "PUT"; "PATCH"; "DELETE"; "OPTIONS"].

Definition DEFAULT_SECURITY_HEADERS : gmap string string :=
  <["Strict-Transport-Security" := "max-age=31536000; includeSubDomains"]>
    (<["X-Content-Type-Options" := "nosniff"]>
       (<["X-Frame-Options" := "DENY"]>
          (<["Content-Security-Policy" := "default-src 'none'"]>
             (<["Cache-Control" := "no-store, max-age=0"]>
                (<["Pragma" := "no-cache"]> ∅))))).

(** ** The steps a run performs, and the monad that records them *)

Inductive Step : Type :=
| ValidateBody (data : JsValue)
| ReflectBody
| ReflectQuery
| InvokeStage (index : nat) (query : JsValue).

(** A computation that logs the steps it performs and may throw. *)
Definition Eff (A : Type) : Type := list Step * Completion A.

#[global] Instance Eff_ret : MRet Eff := fun A a => ([], Normal a).

#[global] Instance Eff_bind : MBind Eff := fun A B f m =>
  match m with
  | (steps, Normal a) => let '(steps', r) := f a in (steps ++ steps', r)
  | (steps, Throw e) => (steps, Throw e)
  end.

Definition throw {A : Type} (e : Thrown) : Eff A := ([], Throw e).
Definition tell (s : Step) : Eff unit := ([s], Normal tt).
Definition lift {A : Type} (c : Completion A) : Eff A := ([], c).

(** ** The handler *)

Section Handler.

Variable rt : Runtime.

(** [new RequestTimeoutError()] and [new PayloadTooLargeError()] *)
Definition new_RequestTimeoutError : JsError :=
  {| error_class := RequestTimeoutError;
     error_message := RequestTimeoutError_message rt;
     error_errors := None |}.

Definition new_PayloadTooLargeError : JsError :=
  {| error_class := PayloadTooLargeError;
     error_message := PayloadTooLargeError_message rt;
     error_errors := None |}.

(** [validate(schema, data)].  The validator normalises [data] in place;
    the handler parses a fresh value for it and drops what [validate]
    returns (line 185), so the value is passed back as it is. *)
Definition validate (schema data : JsValue) : Eff JsValue :=
  tell (ValidateBody data);;
  validator ← lift (ajv_compile rt schema);
  let run := validator data in
  if valid run then mret data
  else throw (ThrownError
                (new_SchemaValidationError "Validation failed"
                   (formatErrors (validator_errors run)))).

(** *** The handler chain (lines 198-223) *)

(** [firstValueFrom(result)] on a stage's observable. *)
Definition firstValueFrom (o : Observable) : Promise :=
  match emitted o with
  | v :: _ => Resolves v
  | [] =>
      match terminal o with
      | Completes =>
          Rejects (ThrownError {| error_class := EmptyError;
                                  error_message := "no elements in sequence";
                                  error_errors := None |})
      | Errors e => Rejects e
      | Silent => Pending
      end
  end.

(** The function given to [map]: create the executable, run it, and turn
    an observable result into the promise of its first value. *)
Definition project (createHandler : IUseCaseInlineFunc) (query : JsValue)
                   (event : APIGatewayProxyEvent)
  : Completion (JsValue + Promise) :=
  match createHandler query event with
  | Throw e => Throw e
  | Normal handler =>
      match execute handler query with
      | Throw e => Throw e
      | Normal (Returns v) => Normal (inl v)
      | Normal (ReturnsPromise p) => Normal (inr p)
      | Normal (ReturnsObservable o) => Normal (inr (firstValueFrom o))
      end
  end.

(** The function given to [switchMap]: [async result => result ?? null].
    A promise object is not nullish, so it is returned as it is and the
    async function settles as that promise does. *)
Definition coalesce (result : JsValue + Promise) : Promise :=
  match result with
  | inl v => Resolves (nullish v JsNull)
  | inr p => p
  end.

(** One stage of the pipe: what it delivers downstream for one query. *)
Definition run_stage (createHandler : IUseCaseInlineFunc) (query : JsValue)
                     (event : APIGatewayProxyEvent) : Promise :=
  match project createHandler query event with
  | Throw e => Rejects e
  | Normal result => coalesce result
  end.

(** The observable built by the loop over [config.handlers], subscribed
    once: every stage is a [map] followed by a [switchMap] on the single
    value of the stage before it. *)
Fixpoint run_handlers (stages : list IUseCaseInlineFunc) (index : nat)
                      (query : JsValue) (event : APIGatewayProxyEvent)
  : list Step * Promise :=
  match stages with
  | [] => ([], Resolves query)
  | createHandler :: rest =>
      match run_stage createHandler query event with
      | Resolves v =>
          let '(steps, p) := run_handlers rest (S index) v event in
          (InvokeStage index query :: steps, p)
      | Rejects e => ([InvokeStage index query], Rejects e)
      | Pending => ([InvokeStage index query], Pending)
      end
  end.

(** The [timeout] operator: no first value before the deadline throws a
    [RequestTimeoutError]. *)
Definition timeout (p : Promise) : Completion JsValue :=
  match p with
  | Resolves v => Normal v
  | Rejects e => Throw e
  | Pending => Throw (ThrownError new_RequestTimeoutError)
  end.

(** [.catch(error => { if (error instanceof EmptyError) return null; throw error })] *)
Definition catch_empty (c : Completion JsValue) : Completion JsValue :=
  match c with
  | Normal v => Normal v
  | Throw e => if instanceOf e EmptyError then Normal JsNull else Throw e
  end.

(** *** Response assembly *)

Variable builderConfig : HandlerBuilderConfig.
Variable config : HandlerConfig.

Definition max_response_size : N :=
  default DEFAULT_MAX_RESPONSE_SIZE (maxResponseSize builderConfig).

Definition securityHeaders : gmap string string :=
  default DEFAULT_SECURITY_HEADERS (config_headers builderConfig).

Definition effective_timeout : N :=
  default DEFAULT_TIMEOUT (timeoutMs config).

(** The header object of both kinds of response. *)
Definition response_headers (event : APIGatewayProxyEvent) : gmap string string :=
  let allowedOrigin :=
    validateOrigin (headers event !! "origin") (corsOriginWhitelist builderConfig) in
  <["Content-Type" := "application/json"]>
    (<["Access-Control-Allow-Origin" := allowedOrigin]> securityHeaders).

(** [event.body || fallback] *)
Definition body_or (event : APIGatewayProxyEvent) (fallback : string) : string :=
  match body event with
  | Some b => if Str.nonempty b then b else fallback
  | None => fallback
  end.

(** The content-type check at the head of the [try] block (lines 178-181). *)
Definition contentTypeGate (event : APIGatewayProxyEvent) : Completion unit :=
  if bool_decide (httpMethod event ∈ ["POST"; "PUT"])
     && negb (match headers event !! "content-type" with
              | Some contentType => Str.includes "application/json" contentType
              | None => false
              end)
  then Throw (ThrownError (new_Error "Content-Type must be application/json"))
  else Normal tt.

(** Lines 225-244: serialise the result, check its size, build the 200. *)
Definition respond (event : APIGatewayProxyEvent) (result : JsValue)
  : Completion APIGatewayProxyResult :=
  match Json.stringify result with
  | None =>
      Throw (ThrownError {| error_class := TypeError;
                            error_message := byteLength_TypeError_message rt;
                            error_errors := None |})
  | Some responseBody =>
      if (max_response_size <? byteLength responseBody)%N
      then Throw (ThrownError new_PayloadTooLargeError)
      else Normal {| statusCode := 200;
                     result_headers := response_headers event;
                     result_body := responseBody |}
  end.

(** Lines 183-196: validation of the body and the two reflections.  It
    yields the event as the stages will see it (its body replaced by the
    reflected body when that is not empty) and the initial query. *)
Definition prepare (event : APIGatewayProxyEvent)
  : Eff (APIGatewayProxyEvent * JsValue) :=
  match bodySchema config with
  | Some schema =>
      bodyData ← lift (JSON_parse rt (body_or event "{}"));
      validate schema bodyData;; mret tt
  | None => mret tt
  end;;
  initialBody ←
    match initialBodyReflector config with
    | Some reflector =>
        source ← lift (JSON_parse rt (body_or event EmptyString));
        tell ReflectBody;; lift (reflector source)
    | None => mret []
    end;
  let event :=
    if (0 <? List.length initialBody)%nat
    then {| httpMethod := httpMethod event;
            headers := headers event;
            body := Json.stringify (JsObject initialBody) |}
    else event in
  initialQuery ←
    match initialQueryReflector config with
    | Some reflector => tell ReflectQuery;; lift (reflector event)
    | None => mret []
    end;
  mret (event, JsObject initialQuery).

(** Lines 178-196: the content-type check, then [prepare]. *)
Definition prelude (event : APIGatewayProxyEvent)
  : Eff (APIGatewayProxyEvent * JsValue) :=
  lift (contentTypeGate event);; prepare event.

(** Lines 211-244: what the subscribed pipe delivered is put under the
    deadline, an [EmptyError] is turned into [null], and the result is
    answered. *)
Definition answer (event : APIGatewayProxyEvent) (observable : Promise)
  : Completion APIGatewayProxyResult :=
  match catch_empty (timeout observable) with
  | Normal result => respond event result
  | Throw e => Throw e
  end.

(** Lines 198-244: run the chain under the deadline and answer. *)
Definition execute_chain (event : APIGatewayProxyEvent) (initialQuery : JsValue)
  : Eff APIGatewayProxyResult :=
  let '(steps, observable) := run_handlers (handlers config) 0 initialQuery event in
  (steps, answer event observable).

(** The [try] block. *)
Definition try_block (event : APIGatewayProxyEvent) : Eff APIGatewayProxyResult :=
  prepared ← prelude event;
  execute_chain (fst prepared) (snd prepared).

(** *** The error classifier and the [catch] block (lines 246-295) *)

(** The object [errorMapping] of line 249. *)
Definition errorMapping : list (N * list ErrorClass) :=
  let user := IntKeyed.of_literal (default [] (errorToStatusCodeMapping config)) in
  IntKeyed.set 413 [PayloadTooLargeError]
    (IntKeyed.set 408 [RequestTimeoutError]
       (IntKeyed.set 400
          (default [] (IntKeyed.get 400 user) ++ [SchemaValidationError])
          user)).

Definition is_Error (error : Thrown) : bool :=
  match error with ThrownError _ => true | ThrownValue _ => false end.

(** The status chosen by lines 247-263. *)
Definition classify (error : Thrown) : N :=
  if is_Error error then
    match List.find (fun rule => existsb (instanceOf error) (snd rule)) errorMapping with
    | Some rule => fst rule
    | None => 500
    end
  else 500.

(** One element of [validationErrors] (lines 274-279). *)
Definition validation_entry (err : JsFields) : JsValue :=
  JsObject [("path", get_property "schemaPath" err);
            ("message", get_property "message" err);
            ("keyword", get_property "keyword" err);
            ("params", get_property "params" err)].

(** The object [errorBody] after line 281. *)
Definition errorBody (context : Context) (now : string) (error : Thrown) : JsFields :=
  [("message", JsString match error with
                        | ThrownError e => error_message e
                        | ThrownValue _ => "Unexpected error occurred"
                        end);
   ("code", JsNumber (Z.of_N (classify error)));
   ("requestId", JsString (awsRequestId context));
   ("timestamp", JsString now)]
  ++ match error with
     | ThrownError e =>
         match instanceOf error SchemaValidationError, error_errors e with
         | true, Some errors =>
             [("validationErrors", JsArray (map validation_entry errors))]
         | _, _ => []
         end
     | ThrownValue _ => []
     end.

(** The [catch] block. *)
Definition catch_block (event : APIGatewayProxyEvent) (context : Context)
                       (now : string) (error : Thrown) : APIGatewayProxyResult :=
  {| statusCode := classify error;
     result_headers := response_headers event;
     result_body := Json.render (JsObject (errorBody context now error)) |}.

(** [try { ... } catch (error) { ... }]: a normal completion is the
    response, a thrown value is answered by the [catch] block. *)
Definition settle (event : APIGatewayProxyEvent) (context : Context) (now : string)
                  (c : Completion APIGatewayProxyResult) : APIGatewayProxyResult :=
  match c with
  | Normal response => response
  | Throw error => catch_block event context now error
  end.

(** The handler: the steps it performed and the response it returns.
    [now] is the text [new Date().toISOString()] yields in the [catch] block. *)
Definition handler (event : APIGatewayProxyEvent) (context : Context) (now : string)
  : list Step * APIGatewayProxyResult :=
  let '(steps, c) := try_block event in (steps, settle event context now c).

End Handler.

Arguments instanceOf error errorType : simpl never.
Arguments classify config error : assert.
Arguments errorMapping config : assert.

(** ** The deadline on a clock (lines 198-223)

    [handler] reads a run without a clock: whether a promise settles before
    the deadline is given with the promise ([Pending]).  [handler_timed]
    computes it from the times of the run. *)

(** The times of one run, in milliseconds.  [prelude_ms] is how long the
    synchronous lines 177-196 run (content-type check, validation,
    reflection); [latency k] is how long after stage [k] is invoked the
    promise it hands to the pipe settles; [timer_first_on_tie] says which of
    a settlement and the deadline due in the same millisecond the event
    loop runs first.  Synchronous work of a stage takes no time on this
    clock: the timer cannot fire while it runs. *)
Record Timing : Type := {
  prelude_ms : N;
  latency : nat -> N;
  timer_first_on_tie : bool
}.

(** The stage hands a promise to [switchMap] (what [execute] returned, or
    [firstValueFrom] of the observable it returned), rather than a plain
    value or a throw. *)
Definition hands_promise (createHandler : IUseCaseInlineFunc) (query : JsValue)
                         (event : APIGatewayProxyEvent) : bool :=
  match project createHandler query event with
  | Normal (inr _) => true
  | _ => false
  end.

(** A settlement due [settled_at] ms after subscription, after a wait of
    [waited] ms, reaches the [timeout] operator before its timer of
    [deadline] ms does.  Without a wait the value travels in the same turn
    of the event loop as the one before it. *)
Definition arrives_in_time (timing : Timing) (deadline waited settled_at : N) : bool :=
  (waited =? 0)%N
  || (if timer_first_on_tie timing then (settled_at <? deadline)%N
      else (settled_at <=? deadline)%N).

(** The pipe of lines 198-218 on the clock: the timer of [timeout] is
    started once, at subscription ([elapsed] is counted from there and
    carried from stage to stage).  The third component is the time at which
    the pipe delivers its value or its error, the deadline itself when the
    timer fires first. *)
Fixpoint run_handlers_timed (timing : Timing) (deadline : N)
                            (stages : list IUseCaseInlineFunc) (index : nat)
                            (elapsed : N) (query : JsValue)
                            (event : APIGatewayProxyEvent)
  : list Step * Promise * N :=
  match stages with
  | [] => ([], Resolves query, elapsed)
  | createHandler :: rest =>
      let waited :=
        if hands_promise createHandler query event then latency timing index
        else 0%N in
      let settled_at := (elapsed + waited)%N in
      let late := ([InvokeStage index query], Pending, deadline) in
      match run_stage createHandler query event with
      | Resolves v =>
          if arrives_in_time timing deadline waited settled_at then
            let '(steps, p, delivered_at) :=
              run_handlers_timed timing deadline rest (S index) settled_at v event in
            (InvokeStage index query :: steps, p, delivered_at)
          else late
      | Rejects e =>
          if arrives_in_time timing deadline waited settled_at
          then ([InvokeStage index query], Rejects e, settled_at)
          else late
      | Pending => late
      end
  end.

(** The handler on the clock: its steps, its response, and the time from
    reception at which it answers.  The deadline is
    [config.timeoutMs ?? DEFAULT_TIMEOUT], counted from the subscription at
    line 220, after the prelude. *)
Definition handler_timed (timing : Timing) (rt : Runtime)
                         (builderConfig : HandlerBuilderConfig)
                         (config : HandlerConfig) (event : APIGatewayProxyEvent)
                         (context : Context) (now : string)
  : list Step * APIGatewayProxyResult * N :=
  match prelude rt config event with
  | (steps0, Throw e) =>
      (steps0, catch_block builderConfig config event context now e,
       prelude_ms timing)
  | (steps0, Normal prepared) =>
      let '(steps1, observable, delivered_at) :=
        run_handlers_timed timing (effective_timeout config) (handlers config)
                           0 0%N (snd prepared) (fst prepared) in
      (steps0 ++ steps1,
       settle builderConfig config event context now
         (answer rt builderConfig (fst prepared) observable),
       (prelude_ms timing + delivered_at)%N)
  end.

(** The latencies of [count] stages from stage [index] on, summed. *)
Fixpoint total_latency (timing : Timing) (index count : nat) : N :=
  match count with
  | O => 0%N
  | S count' => (latency timing index + total_latency timing (S index) count')%N
  end.

(** ** The custom [email] format and the [customErrors] keyword (lines 120-135) *)

(** Regular expressions over UTF-16 code units, with the matcher by
    derivatives: for a pattern anchored at both ends, [regex.test(data)]
    holds exactly when the whole of [data] is in the language. *)
Module Regex.

Inductive t : Type :=
| Void
| Eps
| Class (p : N -> bool)
| Seq (r1 r2 : t)
| Alt (r1 r2 : t)
| Star (r : t).

(** [r+] *)
Definition Plus (r : t) : t := Seq r (Star r).

Fixpoint nullable (r : t) : bool :=
  match r with
  | Void => false
  | Eps => true
  | Class _ => false
  | Seq r1 r2 => nullable r1 && nullable r2
  | Alt r1 r2 => nullable r1 || nullable r2
  | Star _ => true
  end.

Fixpoint deriv (c : N) (r : t) : t :=
  match r with
  | Void => Void
  | Eps => Void
  | Class p => if p c then Eps else Void
  | Seq r1 r2 =>
      if nullable r1 then Alt (Seq (deriv c r1) r2) (deriv c r2)
      else Seq (deriv c r1) r2
  | Alt r1 r2 => Alt (deriv c r1) (deriv c r2)
  | Star r0 => Seq (deriv c r0) (Star r0)
  end.

(** [/^r$/.test(data)] *)
Fixpoint test (r : t) (data : list N) : bool :=
  match data with
  | [] => nullable r
  | c :: rest => test (deriv c r) rest
  end.

End Regex.

(** The code units [\s] matches: the white space and line terminator
    characters of the language. *)
Definition is_whitespace (c : N) : bool :=
  bool_decide (c ∈ [9; 10; 11; 12; 13; 32; 160; 5760; 8232; 8233; 8239; 8287;
                    12288; 65279]%N)
  || ((8192 <=? c)%N && (c <=? 8202)%N).

(** [[^\s@]] *)
Definition not_space_nor_at (c : N) : bool :=
  negb (is_whitespace c || (c =? 64)%N).

(** [/^[^\s@]+@[^\s@]+\.[^\s@]+$/] *)
Definition email_pattern : Regex.t :=
  Regex.Seq (Regex.Plus (Regex.Class not_space_nor_at))
    (Regex.Seq (Regex.Class (N.eqb 64))
       (Regex.Seq (Regex.Plus (Regex.Class not_space_nor_at))
          (Regex.Seq (Regex.Class (N.eqb 46))
             (Regex.Plus (Regex.Class not_space_nor_at))))).

(** [emailFormat.validate(data)], on the code units of [data]. *)
Definition emailFormat_validate (data : list N) : bool :=
  Regex.test email_pattern data.

(** The code units of an ASCII text. *)
Fixpoint code_units (s : string) : list N :=
  match s with
  | EmptyString => []
  | String c rest => N_of_ascii c :: code_units rest
  end.

(** [customErrorsKeyword.validate(schema, data)] *)
Definition customErrors_validate (schema data : JsValue) : bool := true.

(** ** A concrete runtime and concrete requests

    Used to evaluate the handler on explicit inputs. *)

Module Demo.

(** A [JSON.parse] that knows the empty object and rejects anything else. *)
Definition parse (text : string) : Completion JsValue :=
  if String.eqb text "{}" then Normal (JsObject [])
  else Throw (ThrownError {| error_class := SyntaxError;
                             error_message := "Unexpected end of JSON input";
                             error_errors := None |}).

(** What the validator reports for an object that lacks a required
    property [name] of the object at [path]. *)
Definition required (path name : string) : ErrorObject :=
  {| instancePath := path;
     schemaPath := "#/required";
     keyword := "required";
     params := {| missingProperty := Some name;
                  additionalProperty := None;
                  format := None;
                  params_errors := None |};
     message := Some ("must have required property '" +:+ name +:+ "'");
     schema := JsArray [JsString name] |}.

(** A validator for the schema [{required: ["password"]}]. *)
Definition compile (schema : JsValue) : Completion (JsValue -> ValidatorRun) :=
  Normal (fun data =>
            match data with
            | JsObject fields =>
                if is_undefined (get_property "password" fields)
                then {| valid := false;
                        validator_errors := Some [required EmptyString "password"] |}
                else {| valid := true; validator_errors := None |}
            | _ => {| valid := false; validator_errors := Some [] |}
            end).

Definition runtime : Runtime :=
  {| JSON_parse := parse;
     ajv_compile := compile;
     RequestTimeoutError_message := "Request timeout";
     PayloadTooLargeError_message := "Payload too large";
     byteLength_TypeError_message := "The string argument must be of type string" |}.

(** [awsLambdaHandlerBuilder()] and [awsLambdaHandlerBuilder({corsOriginWhitelist, maxResponseSize})] *)
Definition builder (whitelist : option (list string)) (cap : option N)
  : HandlerBuilderConfig :=
  {| maxResponseSize := cap;
     allowedMethods := None;
     config_headers := None;
     corsOriginWhitelist := whitelist |}.

(** [{handlers, errorToStatusCodeMapping, bodySchema}] *)
Definition config (stages : list IUseCaseInlineFunc)
                  (mapping : option (list (N * list ErrorClass)))
                  (schema : option JsValue) : HandlerConfig :=
  {| handlers := stages;
     initialBodyReflector := None;
     initialQueryReflector := None;
     errorToStatusCodeMapping := mapping;
     bodySchema := schema;
     timeoutMs := None |}.

Definition request (method : string) (hdrs : list (string * string))
                   (payload : option string) : APIGatewayProxyEvent :=
  {| httpMethod := method; headers := list_to_map hdrs; body := payload |}.

Definition context : Context := {| awsRequestId := "req-1" |}.

Definition now : string := "2024-01-01T00:00:00.000Z".

(** A stage [() => ({execute: query => f(query)})]. *)
Definition stage (f : JsValue -> ExecuteResult) : IUseCaseInlineFunc :=
  fun _ _ => Normal {| execute := fun query => Normal (f query) |}.

(** A stage whose [execute] throws [new cls(message)]. *)
Definition throwing (cls : ErrorClass) (message : string) : IUseCaseInlineFunc :=
  fun _ _ =>
    Normal {| execute := fun _ =>
                Throw (ThrownError {| error_class := cls;
                                      error_message := message;
                                      error_errors := None |}) |}.

(** [rxjs.EMPTY] *)
Definition EMPTY : Observable := {| emitted := []; terminal := Completes |}.

End Demo.

(** ** Vocabulary of the statements *)

(** Keys strictly ascending: the enumeration order of the object. *)
Definition ascending {V : Type} (obj : list (N * V)) : Prop :=
  StronglySorted (fun a b => (fst a < fst b)%N) obj.

(** The rules the user wrote in [errorToStatusCodeMapping]. *)
Definition user_rules (config : HandlerConfig) : list (N * list ErrorClass) :=
  default [] (errorToStatusCodeMapping config).

(** A rule matches an error when one of its classes does. *)
Definition rule_matches (error : Thrown) (rule : N * list ErrorClass) : bool :=
  existsb (instanceOf error) (snd rule).

(** No rule written by the user matches the error. *)
Definition no_user_rule_matches (config : HandlerConfig) (error : Thrown) : bool :=
  forallb (fun rule => negb (rule_matches error rule)) (user_rules config).

(** The 400 rule of [errorMapping]: the user's 400 classes, then the
    validation error. *)
Definition rule_400 (config : HandlerConfig) : N * list ErrorClass :=
  (400%N,
   default [] (IntKeyed.get 400 (IntKeyed.of_literal (user_rules config)))
   ++ [SchemaValidationError]).

(** Stage [createHandler] fails with [e] on [query]: its factory throws, its
    executable throws, the promise it returns rejects, or the observable it
    returns errors before emitting (for [firstValueFrom], completing without
    a value is one way of erroring). *)
Definition stage_fails (createHandler : IUseCaseInlineFunc) (query : JsValue)
                       (event : APIGatewayProxyEvent) (e : Thrown) : Prop :=
  createHandler query event = Throw e
  \/ exists handler,
      createHandler query event = Normal handler
      /\ (execute handler query = Throw e
          \/ execute handler query = Normal (ReturnsPromise (Rejects e))
          \/ exists o, execute handler query = Normal (ReturnsObservable o)
                       /\ firstValueFrom o = Rejects e).

(** The indices of the stages invoked by a run, in the order of invocation. *)
Fixpoint stage_indices (steps : list Step) : list nat :=
  match steps with
  | [] => []
  | InvokeStage index _ :: rest => index :: stage_indices rest
  | _ :: rest => stage_indices rest
  end.

(** The request declares a JSON content type the way the handler reads it:
    the header stored under the exact name [content-type] contains the text
    [application/json]. *)
Definition declares_json (event : APIGatewayProxyEvent) : bool :=
  match headers event !! "content-type" with
  | Some contentType => Str.includes "application/json" contentType
  | None => false
  end.

(** The request declares a JSON content type under a header name read
    without regard to case. *)
Definition declares_json_any_case (event : APIGatewayProxyEvent) : Prop :=
  exists name contentType,
    headers event !! name = Some contentType
    /\ Str.lower name = "content-type"
    /\ Str.includes "application/json" contentType = true.

(** The language of a regular expression. *)
Inductive Matches : Regex.t -> list N -> Prop :=
| MatchesEps : Matches Regex.Eps []
| MatchesClass p c : p c = true -> Matches (Regex.Class p) [c]
| MatchesSeq r1 r2 s1 s2 :
    Matches r1 s1 -> Matches r2 s2 -> Matches (Regex.Seq r1 r2) (s1 ++ s2)
| MatchesAltL r1 r2 s : Matches r1 s -> Matches (Regex.Alt r1 r2) s
| MatchesAltR r1 r2 s : Matches r2 s -> Matches (Regex.Alt r1 r2) s
| MatchesStarNil r : Matches (Regex.Star r) []
| MatchesStarApp r s1 s2 :
    Matches r s1 -> Matches (Regex.Star r) s2 -> Matches (Regex.Star r) (s1 ++ s2).

(** A non-empty run of code units that are neither white space nor [@]. *)
Definition email_part (part : list N) : Prop :=
  part <> [] /\ Forall (fun c => not_space_nor_at c = true) part.

(** The configuration with its [bodySchema] removed. *)
Definition without_schema (config : HandlerConfig) : HandlerConfig :=
  {| handlers := handlers config;
     initialBodyReflector := initialBodyReflector config;
     initialQueryReflector := initialQueryReflector config;
     errorToStatusCodeMapping := errorToStatusCodeMapping config;
     bodySchema := None;
     timeoutMs := timeoutMs config |}.

(** The builder configuration with another [allowedMethods]. *)
Definition with_allowedMethods (methods : option (list string))
                               (builderConfig : HandlerBuilderConfig)
  : HandlerBuilderConfig :=
  {| maxResponseSize := maxResponseSize builderConfig;
     allowedMethods := methods;
     config_headers := config_headers builderConfig;
     corsOriginWhitelist := corsOriginWhitelist builderConfig |}.

(** The character occurs in the text. *)
Fixpoint occurs (c : ascii) (s : string) : bool :=
  match s with
  | EmptyString => false
  | String c' rest => Ascii.eqb c' c || occurs c rest
  end.

(** The first of the optional texts that is truthy. *)
Fixpoint first_truthy (candidates : list (option string)) : option string :=
  match candidates with
  | [] => None
  | candidate :: rest =>
      if truthy_str candidate then candidate else first_truthy rest
  end.

(** A validator error outside the [errorMessage] consolidation that
    carries a non-empty message. *)
Definition plain_error (error : ErrorObject) : Prop :=
  (String.eqb (keyword error) "errorMessage" = false
   \/ params_errors (params error) = None)
  /\ truthy_str (message error) = true.

(** A request body that satisfies the schema of [Demo.compile], and a
    [JSON.parse] that also knows its text. *)
Definition valid_body : JsValue := JsObject [("password", JsString "longenough")].

Definition parse_valid_body (text : string) : Completion JsValue :=
  if String.eqb text (Json.render valid_body) then Normal valid_body
  else Demo.parse text.

Definition runtime_with_valid_body : Runtime :=
  {| JSON_parse := parse_valid_body;
     ajv_compile := Demo.compile;
     RequestTimeoutError_message := "Request timeout";
     PayloadTooLargeError_message := "Payload too large";
     byteLength_TypeError_message := "The string argument must be of type string" |}.

(** A configuration whose body reflector keeps the field [name]. *)
Definition config_reflecting_name (stages : list IUseCaseInlineFunc) : HandlerConfig :=
  {| handlers := stages;
     initialBodyReflector := Some (fun source => Normal [("name", JsString "Al")]);
     initialQueryReflector := None;
     errorToStatusCodeMapping := None;
     bodySchema := None;
     timeoutMs := None |}.

(** The stage invocations of a chain on an initial query: each stage of the
    list in turn, under its position, on the value the stage before it
    delivered; the trace ends with the first stage that delivers no value,
    or with the chain. *)
Inductive chain_trace (event : APIGatewayProxyEvent)
  : list IUseCaseInlineFunc -> nat -> JsValue -> list Step -> Prop :=
| chain_trace_end index query : chain_trace event [] index query []
| chain_trace_stop createHandler rest index query :
    (forall v, run_stage createHandler query event <> Resolves v) ->
    chain_trace event (createHandler :: rest) index query [InvokeStage index query]
| chain_trace_next createHandler rest index query v steps :
    run_stage createHandler query event = Resolves v ->
    chain_trace event rest (S index) v steps ->
    chain_trace event (createHandler :: rest) index query
                (InvokeStage index query :: steps).

(** [{handlers, errorToStatusCodeMapping, bodySchema, timeoutMs}] *)
Definition config_with_timeout (stages : list IUseCaseInlineFunc)
                               (mapping : option (list (N * list ErrorClass)))
                               (schema : option JsValue) (ms : N) : HandlerConfig :=
  {| handlers := stages;
     initialBodyReflector := None;
     initialQueryReflector := None;
     errorToStatusCodeMapping := mapping;
     bodySchema := schema;
     timeoutMs := Some ms |}.

(** The times of a run whose prelude takes [prelude] ms and in which every
    promise takes [each] ms to settle. *)
Definition steady_timing (prelude each : N) : Timing :=
  {| prelude_ms := prelude; latency := fun _ => each; timer_first_on_tie := true |}.

(** * Properties *)

(** ** Integer-keyed objects *)

Section IntKeyedFacts.
Context {V : Type}.
Implicit Types (obj : list (N * V)) (k : N) (v : V) (r : N * V).

Lemma set_elem_of obj k v r :
  r ∈ IntKeyed.set k v obj -> r = (k, v) \/ r ∈ obj.
Proof.
  induction obj as [|[k' v'] rest IH]; simpl.
  - rewrite list_elem_of_singleton. auto.
  - destruct (N.eqb_spec k k').
    + rewrite !elem_of_cons. tauto.
    + destruct (N.ltb_spec k k') as [Hlt|Hge]; rewrite !elem_of_cons; [tauto|].
      intros [->|Hin]; [auto|]. destruct (IH Hin); auto.
Qed.

Lemma set_elem_of_new obj k v : (k, v) ∈ IntKeyed.set k v obj.
Proof.
  induction obj as [|[k' v'] rest IH]; simpl.
  - apply list_elem_of_singleton. reflexivity.
  - destruct (N.eqb_spec k k'); [apply elem_of_cons; auto|].
    destruct (N.ltb_spec k k'); apply elem_of_cons; auto.
Qed.

Lemma set_elem_of_other obj k v r :
  r ∈ obj -> fst r <> k -> r ∈ IntKeyed.set k v obj.
Proof.
  induction obj as [|[k' v'] rest IH]; simpl; [easy|].
  rewrite elem_of_cons. intros Hin Hne.
  destruct (N.eqb_spec k k') as [->|].
  - destruct Hin as [->|Hin]; [simpl in Hne; congruence|].
    apply elem_of_cons; auto.
  - destruct (N.ltb_spec k k'); rewrite !elem_of_cons; [tauto|].
    destruct Hin; auto.
Qed.

Lemma set_ascending obj k v : ascending obj -> ascending (IntKeyed.set k v obj).
Proof.
  unfold ascending. induction obj as [|[k' v'] rest IH]; simpl; intros Hs.
  - repeat constructor.
  - apply StronglySorted_inv in Hs as [Hrest Hall].
    destruct (N.eqb_spec k k') as [->|Hne].
    + constructor; assumption.
    + destruct (N.ltb_spec k k') as [Hlt|Hge].
      * constructor; [constructor; assumption|].
        constructor; [exact Hlt|].
        eapply Forall_impl; [exact Hall|]. simpl. intros; lia.
      * constructor; [auto|].
        apply Forall_forall. intros r Hr.
        destruct (set_elem_of _ _ _ _ Hr) as [->|Hin]; simpl; [lia|].
        rewrite Forall_forall in Hall. exact (Hall r Hin).
Qed.

Lemma of_literal_ascending (entries : list (N * V)) :
  ascending (IntKeyed.of_literal entries).
Proof.
  unfold IntKeyed.of_literal.
  assert (forall acc : list (N * V), ascending acc ->
            ascending (fold_left (fun obj kv => IntKeyed.set (fst kv) (snd kv) obj)
                                 entries acc)) as H.
  { induction entries as [|e rest IH]; simpl; intros acc Hacc; [assumption|].
    apply IH, set_ascending, Hacc. }
  apply H. constructor.
Qed.

Lemma of_literal_elem_of entries r :
  r ∈ IntKeyed.of_literal entries -> r ∈ entries.
Proof.
  unfold IntKeyed.of_literal.
  assert (forall acc,
            r ∈ fold_left (fun obj kv => IntKeyed.set (fst kv) (snd kv) obj)
                          entries acc -> r ∈ acc \/ r ∈ entries) as H.
  { induction entries as [|e rest IH]; simpl; intros acc Hr; [auto|].
    destruct (IH _ Hr) as [Hin|Hin].
    - destruct (set_elem_of _ _ _ _ Hin) as [->|Hacc]; [|auto].
      right. destruct e. apply elem_of_cons. auto.
    - right. apply elem_of_cons. auto. }
  intros Hr. destruct (H _ Hr) as [Hnil|]; [|assumption].
  inversion Hnil.
Qed.

Lemma get_elem_of obj k v : IntKeyed.get k obj = Some v -> (k, v) ∈ obj.
Proof.
  induction obj as [|[k' v'] rest IH]; simpl; [discriminate|].
  destruct (N.eqb_spec k k') as [->|]; intros H.
  - injection H as ->. apply elem_of_cons. auto.
  - apply elem_of_cons. auto.
Qed.

(** [find] on an ascending table returns the matching rule of least key. *)
Lemma find_ascending_least (p : N * V -> bool) obj r :
  ascending obj -> List.find p obj = Some r ->
  r ∈ obj /\ p r = true /\ forall r', r' ∈ obj -> p r' = true -> (fst r <= fst r')%N.
Proof.
  unfold ascending. induction obj as [|a rest IH]; simpl; [discriminate|].
  intros Hs Hfind. apply StronglySorted_inv in Hs as [Hrest Hall].
  destruct (p a) eqn:Hp.
  - injection Hfind as <-. split; [apply elem_of_cons; auto|]. split; [assumption|].
    intros r' Hr' _. apply elem_of_cons in Hr' as [->|Hr']; [lia|].
    rewrite Forall_forall in Hall. specialize (Hall r' Hr'). lia.
  - destruct (IH Hrest Hfind) as (Hin & Hpr & Hleast).
    split; [apply elem_of_cons; auto|]. split; [assumption|].
    intros r' Hr' Hpr'. apply elem_of_cons in Hr' as [->|Hr']; [congruence|].
    auto.
Qed.

End IntKeyedFacts.

(** ** The error classifier *)

Section ClassifierFacts.
Variable config : HandlerConfig.

Lemma errorMapping_ascending : ascending (errorMapping config).
Proof.
  unfold errorMapping. do 3 apply set_ascending. apply of_literal_ascending.
Qed.

Lemma errorMapping_elem_of rule :
  rule ∈ errorMapping config ->
  rule = (413%N, [PayloadTooLargeError]) \/ rule = (408%N, [RequestTimeoutError])
  \/ rule = rule_400 config \/ rule ∈ user_rules config.
Proof.
  unfold errorMapping. intros H.
  apply set_elem_of in H as [->|H]; [auto|].
  apply set_elem_of in H as [->|H]; [auto|].
  apply set_elem_of in H as [->|H]; [auto|].
  do 3 right. apply of_literal_elem_of, H.
Qed.

Lemma errorMapping_builtin :
  (413%N, [PayloadTooLargeError]) ∈ errorMapping config
  /\ (408%N, [RequestTimeoutError]) ∈ errorMapping config
  /\ rule_400 config ∈ errorMapping config.
Proof.
  unfold errorMapping, rule_400, user_rules. repeat split.
  - apply set_elem_of_new.
  - apply set_elem_of_other; [apply set_elem_of_new|simpl; lia].
  - do 2 (apply set_elem_of_other; [|simpl; lia]). apply set_elem_of_new.
Qed.

(** The status of an [Error] is the code of the first matching rule in the
    enumeration order of [errorMapping], that is of the matching rule of
    least code. *)
Lemma classify_first_match e rule :
  rule ∈ errorMapping config -> rule_matches (ThrownError e) rule = true ->
  exists first,
    first ∈ errorMapping config /\ rule_matches (ThrownError e) first = true
    /\ classify config (ThrownError e) = fst first
    /\ forall other, other ∈ errorMapping config ->
                     rule_matches (ThrownError e) other = true ->
                     (fst first <= fst other)%N.
Proof.
  intros Hin Hm. unfold classify. simpl.
  destruct (List.find _ (errorMapping config)) as [first|] eqn:Hfind.
  - destruct (find_ascending_least _ _ _ errorMapping_ascending Hfind)
      as (Hf & Hp & Hleast).
    exists first. auto.
  - apply List.find_none with (x := rule) in Hfind.
    + unfold rule_matches in Hm. congruence.
    + apply list_elem_of_In, Hin.
Qed.

(** An error that no rule matches, and a thrown value that is not an
    [Error], get status 500. *)
Lemma classify_default error :
  (forall rule, rule ∈ errorMapping config -> rule_matches error rule = false) ->
  classify config error = 500%N.
Proof.
  intros Hnone. unfold classify. destruct (is_Error error); [|reflexivity].
  destruct (List.find _ (errorMapping config)) as [rule|] eqn:Hfind; [|reflexivity].
  apply List.find_some in Hfind as [Hin Hp].
  apply list_elem_of_In, Hnone in Hin. unfold rule_matches in Hin. congruence.
Qed.

Lemma classify_thrown_value v : classify config (ThrownValue v) = 500%N.
Proof. reflexivity. Qed.

Lemma user_rule_unmatched error rule :
  no_user_rule_matches config error = true -> rule ∈ user_rules config ->
  rule_matches error rule = false.
Proof.
  unfold no_user_rule_matches. rewrite forallb_forall. intros Hall Hin.
  apply list_elem_of_In, Hall in Hin. destruct (rule_matches error rule); easy.
Qed.

Lemma rule_400_matches error :
  no_user_rule_matches config error = true ->
  rule_matches error (rule_400 config) = instanceOf error SchemaValidationError.
Proof.
  intros Hno. unfold rule_400, rule_matches. simpl.
  rewrite existsb_app. simpl. rewrite orb_false_r.
  destruct (IntKeyed.get 400 _) as [classes|] eqn:Hget; simpl; [|reflexivity].
  apply get_elem_of, of_literal_elem_of in Hget.
  apply (user_rule_unmatched error) in Hget; [|assumption].
  unfold rule_matches in Hget. simpl in Hget. rewrite Hget. reflexivity.
Qed.

(** When no rule of the user matches, the built-in rules decide. *)
Lemma classify_builtin e :
  no_user_rule_matches config (ThrownError e) = true ->
  classify config (ThrownError e) =
    if instanceOf (ThrownError e) SchemaValidationError then 400%N
    else if instanceOf (ThrownError e) RequestTimeoutError then 408%N
    else if instanceOf (ThrownError e) PayloadTooLargeError then 413%N
    else 500%N.
Proof.
  intros Hno.
  pose proof (rule_400_matches _ Hno) as H400.
  destruct errorMapping_builtin as (H413in & H408in & H400in).
  assert (forall rule, rule ∈ errorMapping config ->
            rule_matches (ThrownError e) rule = true ->
            (rule = rule_400 config
             /\ instanceOf (ThrownError e) SchemaValidationError = true)
            \/ (rule = (408%N, [RequestTimeoutError])
                /\ instanceOf (ThrownError e) RequestTimeoutError = true)
            \/ (rule = (413%N, [PayloadTooLargeError])
                /\ instanceOf (ThrownError e) PayloadTooLargeError = true)) as Hcases.
  { intros rule Hin Hm.
    destruct (errorMapping_elem_of _ Hin) as [->|[->|[->|Huser]]].
    - right; right. split; [reflexivity|].
      unfold rule_matches in Hm. simpl in Hm. rewrite orb_false_r in Hm. exact Hm.
    - right; left. split; [reflexivity|].
      unfold rule_matches in Hm. simpl in Hm. rewrite orb_false_r in Hm. exact Hm.
    - left. split; [reflexivity|]. rewrite <- H400. exact Hm.
    - rewrite (user_rule_unmatched _ _ Hno Huser) in Hm. discriminate. }
  assert (forall rule, rule ∈ errorMapping config ->
            rule_matches (ThrownError e) rule = true ->
            forall code, (forall first, first ∈ errorMapping config ->
                            rule_matches (ThrownError e) first = true ->
                            (fst first <= fst rule)%N -> fst first = code) ->
            classify config (ThrownError e) = code) as Hleast.
  { intros rule Hin Hm code Hcode.
    destruct (classify_first_match e rule Hin Hm) as (first & Hf & Hfm & -> & Hmin).
    apply Hcode; auto. }
  destruct (instanceOf (ThrownError e) SchemaValidationError) eqn:Hsve.
  - apply (Hleast _ H400in); [rewrite H400; reflexivity|].
    intros first Hf Hfm Hle.
    destruct (Hcases _ Hf Hfm) as [[-> _]|[[-> _]|[-> _]]]; simpl in *; lia.
  - destruct (instanceOf (ThrownError e) RequestTimeoutError) eqn:Hrte.
    + apply (Hleast _ H408in);
        [unfold rule_matches; simpl; rewrite Hrte; reflexivity|].
      intros first Hf Hfm Hle.
      destruct (Hcases _ Hf Hfm) as [[_ ?]|[[-> _]|[-> _]]];
        simpl in *; [congruence|lia|lia].
    + destruct (instanceOf (ThrownError e) PayloadTooLargeError) eqn:Hptl.
      * apply (Hleast _ H413in);
          [unfold rule_matches; simpl; rewrite Hptl; reflexivity|].
        intros first Hf Hfm Hle.
        destruct (Hcases _ Hf Hfm) as [[_ ?]|[[_ ?]|[-> _]]];
          simpl in *; [congruence|congruence|lia].
      * apply classify_default. intros rule Hin.
        destruct (rule_matches (ThrownError e) rule) eqn:Hm; [|reflexivity].
        destruct (Hcases _ Hin Hm) as [[_ ?]|[[_ ?]|[_ ?]]]; congruence.
Qed.

End ClassifierFacts.

(** ** The handler chain *)

Section ChainFacts.
Implicit Types (stages pre post : list IUseCaseInlineFunc) (event : APIGatewayProxyEvent).

Lemma run_stage_rejects createHandler query event e :
  run_stage createHandler query event = Rejects e <->
  stage_fails createHandler query event e.
Proof.
  unfold run_stage, project, stage_fails. split.
  - destruct (createHandler query event) as [handler|e0]; [|intros [= ->]; auto].
    intros H. right. exists handler. split; [reflexivity|].
    destruct (execute handler query) as [[v|p|o]|e0]; simpl in H.
    + discriminate.
    + subst p. auto.
    + right; right. exists o. auto.
    + injection H as ->. auto.
  - intros [->|(handler & -> & [->|[->|(o & -> & Ho)]])]; simpl; auto.
Qed.

(** The stages of a chain that ran to the end of a prefix go on with the
    value the prefix delivered. *)
Lemma run_handlers_app pre post index query event steps v :
  run_handlers pre index query event = (steps, Resolves v) ->
  run_handlers (pre ++ post) index query event =
    (steps ++ fst (run_handlers post (index + List.length pre) v event),
     snd (run_handlers post (index + List.length pre) v event)).
Proof.
  revert index query steps.
  induction pre as [|createHandler pre IH]; simpl; intros index query steps H.
  - injection H as <- <-. rewrite Nat.add_0_r.
    destruct (run_handlers post index query event); reflexivity.
  - destruct (run_stage createHandler query event) as [v0| |]; try discriminate.
    destruct (run_handlers pre (S index) v0 event) as [steps' p] eqn:Hrest.
    injection H as <- ->.
    rewrite (IH _ _ _ Hrest). rewrite Nat.add_succ_r. reflexivity.
Qed.

(** Stage invocations are logged in chain order, one per stage reached. *)
Lemma run_handlers_order stages index query event steps observable :
  run_handlers stages index query event = (steps, observable) ->
  stage_indices steps = seq index (List.length steps)
  /\ (List.length steps <= List.length stages)%nat.
Proof.
  revert index query steps.
  induction stages as [|createHandler stages IH]; simpl; intros index query steps H.
  - injection H as <- _. split; [reflexivity|simpl; lia].
  - destruct (run_stage createHandler query event) as [v| |];
      [|injection H as <- _; split; [reflexivity|simpl; lia]..].
    destruct (run_handlers stages (S index) v event) as [steps' p] eqn:Hrest.
    injection H as <- <-. destruct (IH _ _ _ Hrest) as [Hseq Hlen].
    simpl. rewrite Hseq. split; [reflexivity|lia].
Qed.

(** A chain whose every stage is reached logs exactly its stages. *)
Lemma run_handlers_resolves_all stages index query event steps v :
  run_handlers stages index query event = (steps, Resolves v) ->
  List.length steps = List.length stages.
Proof.
  revert index query steps.
  induction stages as [|createHandler stages IH]; simpl; intros index query steps H.
  - injection H as <- _. reflexivity.
  - destruct (run_stage createHandler query event) as [v0| |]; try discriminate.
    destruct (run_handlers stages (S index) v0 event) as [steps' p] eqn:Hrest.
    injection H as <- ->. simpl. f_equal. eapply IH, Hrest.
Qed.

End ChainFacts.

(** ** The structure of a run *)

Section RunFacts.
Variable rt : Runtime.
Variable builderConfig : HandlerBuilderConfig.
Variable config : HandlerConfig.
Implicit Types (event : APIGatewayProxyEvent) (context : Context) (now : string).

Lemma prelude_rejected event e :
  contentTypeGate event = Throw e -> prelude rt config event = ([], Throw e).
Proof. intros H. unfold prelude, lift. rewrite H. reflexivity. Qed.

Lemma prelude_passed event :
  contentTypeGate event = Normal tt -> prelude rt config event = prepare rt config event.
Proof.
  intros H. unfold prelude, lift. rewrite H.
  unfold mbind, Eff_bind. destruct (prepare rt config event). reflexivity.
Qed.

Lemma handler_rejected event context now e :
  contentTypeGate event = Throw e ->
  handler rt builderConfig config event context now
  = ([], catch_block builderConfig config event context now e).
Proof.
  intros H. unfold handler, try_block. rewrite (prelude_rejected _ _ H). reflexivity.
Qed.

(** A run whose prelude throws answers from the [catch] block. *)
Lemma handler_prelude_throws event context now steps e :
  prelude rt config event = (steps, Throw e) ->
  handler rt builderConfig config event context now
  = (steps, catch_block builderConfig config event context now e).
Proof. intros H. unfold handler, try_block. rewrite H. reflexivity. Qed.

(** A run whose prelude succeeds goes on with the chain. *)
Lemma handler_chain event context now steps0 event' query steps1 observable :
  prelude rt config event = (steps0, Normal (event', query)) ->
  run_handlers (handlers config) 0 query event' = (steps1, observable) ->
  handler rt builderConfig config event context now
  = (steps0 ++ steps1,
     settle builderConfig config event context now
       (answer rt builderConfig event' observable)).
Proof.
  intros Hpre Hrun. unfold handler, try_block. rewrite Hpre.
  unfold mbind, Eff_bind, execute_chain. simpl. rewrite Hrun. reflexivity.
Qed.

End RunFacts.

Section PreludeFacts.
Variable rt : Runtime.
Variable config : HandlerConfig.

Lemma stage_indices_app steps steps' :
  stage_indices (steps ++ steps') = stage_indices steps ++ stage_indices steps'.
Proof.
  induction steps as [|[]]; simpl; try assumption; [reflexivity|].
  rewrite IHsteps. reflexivity.
Qed.

Ltac run_eff :=
  unfold validate, lift, tell, throw, mbind, mret, Eff_bind, Eff_ret in *;
  repeat (simpl in *; case_match; simplify_eq);
  simpl in *.

(** The prelude invokes no stage, and hands the stages the method and the
    headers of the request unchanged. *)
Lemma prepare_facts event steps c :
  prepare rt config event = (steps, c) ->
  stage_indices steps = []
  /\ forall event' query, c = Normal (event', query) ->
       headers event' = headers event /\ httpMethod event' = httpMethod event.
Proof.
  unfold prepare. intros H. run_eff;
    (split; [reflexivity|]); intros ev' q' Heq; simplify_eq; auto.
Qed.

Lemma prelude_facts event steps c :
  prelude rt config event = (steps, c) ->
  stage_indices steps = []
  /\ forall event' query, c = Normal (event', query) ->
       headers event' = headers event /\ httpMethod event' = httpMethod event.
Proof.
  intros H. destruct (contentTypeGate event) as [[]|e] eqn:Hgate.
  - rewrite (prelude_passed _ _ _ Hgate) in H. eapply prepare_facts, H.
  - rewrite (prelude_rejected _ _ _ _ Hgate) in H. injection H as <- <-.
    split; [reflexivity|discriminate].
Qed.

End PreludeFacts.

(** ** Claims about the handler chain *)

Section StageResults.
Implicit Types (createHandler : IUseCaseInlineFunc) (handler : IUseCase).

(** What a stage hands to the next one, by the shape of its result. *)
Lemma run_stage_returns createHandler handler query event v :
  createHandler query event = Normal handler ->
  execute handler query = Normal (Returns v) ->
  run_stage createHandler query event = Resolves (nullish v JsNull).
Proof. intros H1 H2. unfold run_stage, project. rewrite H1, H2. reflexivity. Qed.

Lemma run_stage_promise createHandler handler query event p :
  createHandler query event = Normal handler ->
  execute handler query = Normal (ReturnsPromise p) ->
  run_stage createHandler query event = p.
Proof. intros H1 H2. unfold run_stage, project. rewrite H1, H2. reflexivity. Qed.

Lemma run_stage_observable createHandler handler query event o :
  createHandler query event = Normal handler ->
  execute handler query = Normal (ReturnsObservable o) ->
  run_stage createHandler query event = firstValueFrom o.
Proof. intros H1 H2. unfold run_stage, project. rewrite H1, H2. reflexivity. Qed.

(** Stage [k] is invoked with what stage [k-1] delivered, and stage 0 with
    the initial query. *)
Lemma stage_receives_previous_result pre createHandler post index query event steps v :
  run_handlers pre index query event = (steps, Resolves v) ->
  exists rest,
    fst (run_handlers (pre ++ createHandler :: post) index query event)
    = steps ++ InvokeStage (index + List.length pre) v :: rest.
Proof.
  intros H. rewrite (run_handlers_app _ _ _ _ _ _ _ H). simpl.
  destruct (run_stage createHandler v event); [|eauto..].
  destruct (run_handlers post _ _ _). simpl. eauto.
Qed.

End StageResults.

(** C1 (defect of the code): a stage result that is [undefined] is coerced
    to [null] only when [execute] returns it directly.  When [execute]
    returns a promise that resolves to [undefined], [result ?? null] sees
    the promise object and the next stage's factory is invoked with
    [undefined]; when that stage is the last one, the handler answers 500
    where the directly returned [undefined] answers 200 with body [null]. *)
Theorem C1_promised_undefined_reaches_next_stage :
  let run stages :=
    handler Demo.runtime (Demo.builder None None) (Demo.config stages None None)
            (Demo.request "GET" [] None) Demo.context Demo.now in
  fst (run [Demo.stage (fun _ => ReturnsPromise (Resolves JsUndefined));
            Demo.stage Returns])
  = [InvokeStage 0 (JsObject []); InvokeStage 1 JsUndefined]
  /\ fst (run [Demo.stage (fun _ => Returns JsUndefined); Demo.stage Returns])
     = [InvokeStage 0 (JsObject []); InvokeStage 1 JsNull]
  /\ statusCode (snd (run [Demo.stage (fun _ => ReturnsPromise (Resolves JsUndefined))]))
     = 500%N
  /\ statusCode (snd (run [Demo.stage (fun _ => Returns JsUndefined)])) = 200%N.
Proof. repeat split; vm_compute; reflexivity. Qed.

(** A failing stage ends the chain: the run invokes the stages up to it
    and answers from the error, or from [null] for an [EmptyError]. *)
Lemma stage_failure_ends_chain
    rt builderConfig config event context now
    steps0 event' query0 pre createHandler post steps1 query e :
  prelude rt config event = (steps0, Normal (event', query0)) ->
  handlers config = pre ++ createHandler :: post ->
  run_handlers pre 0 query0 event' = (steps1, Resolves query) ->
  stage_fails createHandler query event' e ->
  let run := handler rt builderConfig config event context now in
  fst run = steps0 ++ steps1 ++ [InvokeStage (List.length pre) query]
  /\ stage_indices (fst run) = seq 0 (S (List.length pre))
  /\ (instanceOf e EmptyError = false ->
      snd run = catch_block builderConfig config event context now e
      /\ statusCode (snd run) = classify config e)
  /\ (instanceOf e EmptyError = true ->
      snd run = settle builderConfig config event context now
                  (respond rt builderConfig event' JsNull)).
Proof.
  intros Hpre Hstages Hrun Hfail run.
  apply run_stage_rejects in Hfail.
  assert (run_handlers (handlers config) 0 query0 event'
          = (steps1 ++ [InvokeStage (List.length pre) query], Rejects e)) as Hchain.
  { rewrite Hstages, (run_handlers_app _ _ _ _ _ _ _ Hrun). simpl.
    rewrite Hfail. reflexivity. }
  assert (run = (steps0 ++ steps1 ++ [InvokeStage (List.length pre) query],
                 settle builderConfig config event context now
                   (answer rt builderConfig event' (Rejects e)))) as ->.
  { unfold run. apply (handler_chain _ _ _ _ _ _ _ _ _ _ _ Hpre Hchain). }
  cbn [fst snd]. split; [reflexivity|]. split.
  - destruct (prelude_facts _ _ _ _ _ Hpre) as [Hnone _].
    destruct (run_handlers_order _ _ _ _ _ _ Hrun) as [Hseq _].
    rewrite (run_handlers_resolves_all _ _ _ _ _ _ Hrun) in Hseq.
    rewrite !stage_indices_app, Hnone, Hseq, seq_S. reflexivity.
  - unfold answer. simpl. split; intros ->; simpl; auto.
Qed.

(** C2 (counterexample): a stage that throws an [EmptyError] aborts the
    chain, yet the handler answers 200 with body [null]: a success response,
    whose status is not the 500 the classifier gives that error. *)
Lemma C2_empty_error_counterexample :
  let config :=
    Demo.config [Demo.throwing EmptyError "no elements in sequence";
                 Demo.stage Returns] None None in
  let error := ThrownError {| error_class := EmptyError;
                              error_message := "no elements in sequence";
                              error_errors := None |} in
  let run := handler Demo.runtime (Demo.builder None None) config
                     (Demo.request "GET" [] None) Demo.context Demo.now in
  stage_fails (Demo.throwing EmptyError "no elements in sequence")
              (JsObject []) (Demo.request "GET" [] None) error
  /\ classify config error = 500%N
  /\ statusCode (snd run) = 200%N
  /\ result_body (snd run) = "null".
Proof.
  repeat split; try (vm_compute; reflexivity).
  right. eexists. split; [reflexivity|]. left. reflexivity.
Qed.

(** C2 (amended): when the stages before stage [i] succeeded and stage [i]
    fails with [e] (its factory or executable throws, or its asynchronous
    result rejects), the stages invoked by the run are exactly stages
    [0..i], in that order, so no later stage is invoked.  When [e] is not an
    [EmptyError] the response is the error response for [e], whose status is
    the one the classifier gives [e]; when [e] is an [EmptyError] the
    response is the answer to the result [null]. *)
Theorem C2_stage_failure_aborts_chain
    rt builderConfig config event context now
    steps0 event' query0 pre createHandler post steps1 query e :
  prelude rt config event = (steps0, Normal (event', query0)) ->
  handlers config = pre ++ createHandler :: post ->
  run_handlers pre 0 query0 event' = (steps1, Resolves query) ->
  stage_fails createHandler query event' e ->
  let run := handler rt builderConfig config event context now in
  fst run = steps0 ++ steps1 ++ [InvokeStage (List.length pre) query]
  /\ stage_indices (fst run) = seq 0 (S (List.length pre))
  /\ (instanceOf e EmptyError = false ->
      snd run = catch_block builderConfig config event context now e
      /\ statusCode (snd run) = classify config e)
  /\ (instanceOf e EmptyError = true ->
      snd run = settle builderConfig config event context now
                  (respond rt builderConfig event' JsNull)).
Proof.
  intros Hpre Hstages Hrun Hfail.
  exact (stage_failure_ends_chain rt builderConfig config event context now
           _ _ _ _ _ _ _ _ _ Hpre Hstages Hrun Hfail).
Qed.

(** C2 (witness): the second of three stages throws a custom error that the
    user maps to 404. *)
Lemma C2_stage_failure_witness :
  let notFound := CustomError "CustomNotFoundError" BaseError in
  let config :=
    Demo.config [Demo.stage Returns; Demo.throwing notFound "User not found";
                 Demo.stage Returns]
                (Some [(404%N, [notFound])]) None in
  let run := handler Demo.runtime (Demo.builder None None) config
                     (Demo.request "GET" [] None) Demo.context Demo.now in
  stage_indices (fst run) = [0; 1]%nat /\ statusCode (snd run) = 404%N.
Proof.
  intros notFound config run.
  destruct (C2_stage_failure_aborts_chain
              Demo.runtime (Demo.builder None None) config
              (Demo.request "GET" [] None) Demo.context Demo.now
              [] (Demo.request "GET" [] None) (JsObject [])
              [Demo.stage Returns] (Demo.throwing notFound "User not found")
              [Demo.stage Returns] [InvokeStage 0 (JsObject [])] (JsObject [])
              (ThrownError {| error_class := notFound;
                              error_message := "User not found";
                              error_errors := None |}))
    as (_ & Hidx & Herr & _).
  - reflexivity.
  - reflexivity.
  - reflexivity.
  - right. eexists. split; [reflexivity|]. left. reflexivity.
  - split; [exact Hidx|].
    destruct Herr as [_ Hstatus]; [reflexivity|].
    etransitivity; [exact Hstatus|]. vm_compute. reflexivity.
Defined.

(** C7 (counterexample): the first of two stages returns an observable that
    completes without a value.  The second stage is never invoked (the claim
    has it run on [null]); the handler answers 200 with body [null]. *)
Lemma C7_empty_observable_counterexample :
  let run :=
    handler Demo.runtime (Demo.builder None None)
            (Demo.config [Demo.stage (fun _ => ReturnsObservable Demo.EMPTY);
                          Demo.stage Returns] None None)
            (Demo.request "GET" [] None) Demo.context Demo.now in
  fst run = [InvokeStage 0 (JsObject [])]
  /\ ~ In (InvokeStage 1 JsNull) (fst run)
  /\ statusCode (snd run) = 200%N
  /\ result_body (snd run) = "null".
Proof.
  intros run.
  assert (fst run = [InvokeStage 0 (JsObject [])]) as Htrace
    by (vm_compute; reflexivity).
  split; [exact Htrace|]. split.
  - rewrite Htrace. intros [H|[]]. discriminate.
  - split; vm_compute; reflexivity.
Qed.

(** C7 (amended): of the observable a stage returns only the first value is
    taken.  When the observable completes without a value, the stages after
    it are not invoked and the invocation does not fail for that reason: the
    response is the answer to the result [null], which is 200 with body
    [null] whenever four bytes fit the size cap. *)
Theorem C7_observable_stage
    rt builderConfig config event context now
    steps0 event' query0 pre createHandler post steps1 query handler0 o :
  prelude rt config event = (steps0, Normal (event', query0)) ->
  handlers config = pre ++ createHandler :: post ->
  run_handlers pre 0 query0 event' = (steps1, Resolves query) ->
  createHandler query event' = Normal handler0 ->
  execute handler0 query = Normal (ReturnsObservable o) ->
  let run := handler rt builderConfig config event context now in
  (forall v more, emitted o = v :: more ->
     run_stage createHandler query event' = Resolves v)
  /\ (emitted o = [] -> terminal o = Completes ->
      fst run = steps0 ++ steps1 ++ [InvokeStage (List.length pre) query]
      /\ stage_indices (fst run) = seq 0 (S (List.length pre))
      /\ snd run = settle builderConfig config event context now
                     (respond rt builderConfig event' JsNull)
      /\ ((4 <= max_response_size builderConfig)%N ->
          statusCode (snd run) = 200%N /\ result_body (snd run) = "null")).
Proof.
  intros Hpre Hstages Hrun Hcreate Hexec run.
  pose proof (run_stage_observable _ _ _ _ _ Hcreate Hexec) as Hstage.
  split.
  - intros v more Hemit. rewrite Hstage. unfold firstValueFrom.
    rewrite Hemit. reflexivity.
  - intros Hnone Hdone.
    set (empty := ThrownError {| error_class := EmptyError;
                                 error_message := "no elements in sequence";
                                 error_errors := None |}).
    assert (stage_fails createHandler query event' empty) as Hfail.
    { apply run_stage_rejects. rewrite Hstage. unfold firstValueFrom.
      rewrite Hnone, Hdone. reflexivity. }
    destruct (stage_failure_ends_chain
                rt builderConfig config event context now _ _ _ _ _ _ _ _ _
                Hpre Hstages Hrun Hfail) as (Hsteps & Hidx & _ & Hnull).
    fold run in Hsteps, Hidx, Hnull.
    specialize (Hnull eq_refl).
    repeat split; try assumption.
    + rewrite Hnull. unfold respond. simpl.
      destruct (N.ltb_spec (max_response_size builderConfig) (byteLength "null"));
        [|reflexivity].
      unfold byteLength in *. simpl in *. lia.
    + rewrite Hnull. unfold respond. simpl.
      destruct (N.ltb_spec (max_response_size builderConfig) (byteLength "null"));
        [|reflexivity].
      unfold byteLength in *. simpl in *. lia.
Qed.

(** C7 (witness): a chain whose first stage returns [EMPTY]. *)
Lemma C7_observable_stage_witness :
  let run :=
    handler Demo.runtime (Demo.builder None None)
            (Demo.config [Demo.stage (fun _ => ReturnsObservable Demo.EMPTY);
                          Demo.stage Returns] None None)
            (Demo.request "GET" [] None) Demo.context Demo.now in
  stage_indices (fst run) = [0%nat]
  /\ statusCode (snd run) = 200%N /\ result_body (snd run) = "null".
Proof.
  intros run.
  destruct (C7_observable_stage
              Demo.runtime (Demo.builder None None)
              (Demo.config [Demo.stage (fun _ => ReturnsObservable Demo.EMPTY);
                            Demo.stage Returns] None None)
              (Demo.request "GET" [] None) Demo.context Demo.now
              [] (Demo.request "GET" [] None) (JsObject [])
              [] (Demo.stage (fun _ => ReturnsObservable Demo.EMPTY))
              [Demo.stage Returns] [] (JsObject [])
              {| execute := fun _ => Normal (ReturnsObservable Demo.EMPTY) |}
              Demo.EMPTY)
    as (_ & Hempty); [reflexivity..|].
  destruct (Hempty eq_refl eq_refl) as (_ & Hidx & _ & Hfits).
  split; [exact Hidx|]. apply Hfits. vm_compute. discriminate.
Defined.

(** ** Claims about the response *)

Section ResponseFacts.
Variable rt : Runtime.
Variable builderConfig : HandlerBuilderConfig.

Lemma response_headers_same event event' :
  headers event' = headers event ->
  response_headers builderConfig event' = response_headers builderConfig event.
Proof. intros H. unfold response_headers. rewrite H. reflexivity. Qed.

Lemma respond_oversized event result responseBody :
  Json.stringify result = Some responseBody ->
  (max_response_size builderConfig < byteLength responseBody)%N ->
  respond rt builderConfig event result
  = Throw (ThrownError (new_PayloadTooLargeError rt)).
Proof.
  intros Hs Hlt. unfold respond. rewrite Hs.
  destruct (N.ltb_spec (max_response_size builderConfig) (byteLength responseBody));
    [reflexivity|lia].
Qed.

Lemma respond_fits event result responseBody :
  Json.stringify result = Some responseBody ->
  (byteLength responseBody <= max_response_size builderConfig)%N ->
  respond rt builderConfig event result
  = Normal {| statusCode := 200;
              result_headers := response_headers builderConfig event;
              result_body := responseBody |}.
Proof.
  intros Hs Hle. unfold respond. rewrite Hs.
  destruct (N.ltb_spec (max_response_size builderConfig) (byteLength responseBody));
    [lia|reflexivity].
Qed.

(** [undefined] has no serialisation, and measuring it throws. *)
Lemma respond_undefined event :
  exists e, respond rt builderConfig event JsUndefined = Throw (ThrownError e)
            /\ error_class e = TypeError.
Proof. eexists. split; reflexivity. Qed.

End ResponseFacts.

(** C4 (counterexample): the user maps [PayloadTooLargeError] to 404; a
    result whose serialisation exceeds the cap of 10 bytes is answered with
    404, not 413. *)
Lemma C4_user_rule_counterexample :
  let payload := JsString "0123456789abcdef" in
  let run :=
    handler Demo.runtime (Demo.builder None (Some 10%N))
            (Demo.config [Demo.stage (fun _ => Returns payload)]
                         (Some [(404%N, [PayloadTooLargeError])]) None)
            (Demo.request "GET" [] None) Demo.context Demo.now in
  (exists responseBody, Json.stringify payload = Some responseBody
                        /\ (10 < byteLength responseBody)%N)
  /\ statusCode (snd run) = 404%N.
Proof.
  split; [|vm_compute; reflexivity].
  eexists. split; [reflexivity|]. vm_compute. reflexivity.
Qed.

(** C4 (amended): when the chain succeeds with a result whose serialisation
    exceeds the configured [maxResponseSize] (6 MiB when not configured),
    the response is the error response for a [PayloadTooLargeError], never
    the result; its status is 413 when no rule of the user matches that
    error.  A serialisation at or under the cap is answered with status 200
    and that body.  The result is one whose numbers are safe integers, for
    which [Json.stringify] is the text [JSON.stringify] gives. *)
Theorem C4_response_size_cap
    rt builderConfig config event context now
    steps0 event' query0 steps1 observable result responseBody :
  prelude rt config event = (steps0, Normal (event', query0)) ->
  run_handlers (handlers config) 0 query0 event' = (steps1, observable) ->
  catch_empty (timeout rt observable) = Normal result ->
  safe_integers result = true ->
  Json.stringify result = Some responseBody ->
  let response := snd (handler rt builderConfig config event context now) in
  let tooLarge := ThrownError (new_PayloadTooLargeError rt) in
  ((max_response_size builderConfig < byteLength responseBody)%N ->
   response = catch_block builderConfig config event context now tooLarge
   /\ (no_user_rule_matches config tooLarge = true -> statusCode response = 413%N))
  /\ ((byteLength responseBody <= max_response_size builderConfig)%N ->
      response = {| statusCode := 200;
                    result_headers := response_headers builderConfig event;
                    result_body := responseBody |})
  /\ (maxResponseSize builderConfig = None ->
      max_response_size builderConfig = (6 * 1024 * 1024)%N).
Proof.
  intros Hpre Hrun Hresult Hsafe Hbody response tooLarge.
  assert (response = settle builderConfig config event context now
                       (respond rt builderConfig event' result)) as ->.
  { unfold response. rewrite (handler_chain _ _ _ _ _ _ _ _ _ _ _ Hpre Hrun).
    unfold answer. rewrite Hresult. reflexivity. }
  split; [|split].
  - intros Hlt. rewrite (respond_oversized _ _ _ _ _ Hbody Hlt). simpl.
    split; [reflexivity|]. intros Hno.
    rewrite (classify_builtin _ _ Hno). reflexivity.
  - intros Hle. rewrite (respond_fits _ _ _ _ _ Hbody Hle). simpl.
    destruct (prelude_facts _ _ _ _ _ Hpre) as [_ Hsame].
    destruct (Hsame _ _ eq_refl) as [Hheaders _].
    rewrite (response_headers_same _ _ _ Hheaders). reflexivity.
  - intros Hnone. unfold max_response_size. rewrite Hnone. reflexivity.
Qed.

(** C4 (witness): a 18-byte body against a cap of 10 bytes, no user rules. *)
Lemma C4_response_size_cap_witness :
  statusCode
    (snd (handler Demo.runtime (Demo.builder None (Some 10%N))
            (Demo.config [Demo.stage (fun _ => Returns (JsString "0123456789abcdef"))]
                         None None)
            (Demo.request "GET" [] None) Demo.context Demo.now))
  = 413%N.
Proof.
  destruct (C4_response_size_cap
              Demo.runtime (Demo.builder None (Some 10%N))
              (Demo.config [Demo.stage (fun _ => Returns (JsString "0123456789abcdef"))]
                           None None)
              (Demo.request "GET" [] None) Demo.context Demo.now
              [] (Demo.request "GET" [] None) (JsObject [])
              [InvokeStage 0 (JsObject [])] (Resolves (JsString "0123456789abcdef"))
              (JsString "0123456789abcdef")
              (Json.render (JsString "0123456789abcdef")))
    as (Hover & _); [reflexivity..|].
  destruct Hover as [_ Hstatus]; [vm_compute; reflexivity|].
  apply Hstatus. reflexivity.
Defined.

(** ** Claims about the origin policy *)

Section OriginFacts.
Variable rt : Runtime.
Variable builderConfig : HandlerBuilderConfig.
Variable config : HandlerConfig.

(** Both kinds of response carry the same header object. *)
Lemma handler_headers event context now :
  result_headers (snd (handler rt builderConfig config event context now))
  = response_headers builderConfig event.
Proof.
  unfold handler, try_block.
  destruct (prelude rt config event) as [steps0 [[event' query]|e]] eqn:Hpre;
    [|reflexivity].
  destruct (prelude_facts _ _ _ _ _ Hpre) as [_ Hsame].
  destruct (Hsame _ _ eq_refl) as [Hheaders _].
  unfold mbind, Eff_bind, execute_chain. simpl.
  destruct (run_handlers (handlers config) 0 query event') as [steps1 observable].
  unfold answer. destruct (catch_empty (timeout rt observable)); [|reflexivity].
  unfold respond. destruct (Json.stringify a); [|reflexivity].
  destruct (_ <? _)%N; [reflexivity|]. simpl.
  apply response_headers_same, Hheaders.
Qed.

Lemma response_headers_origin event :
  response_headers builderConfig event !! "Access-Control-Allow-Origin"
  = Some (validateOrigin (headers event !! "origin")
                         (corsOriginWhitelist builderConfig)).
Proof.
  unfold response_headers.
  rewrite lookup_insert_ne by discriminate. apply lookup_insert_eq.
Qed.

End OriginFacts.

(** C6 (counterexample): a whitelist is configured and the request declares
    the empty origin, which is not in the whitelist; the header is the
    wildcard, not the text [null]. *)
Lemma C6_empty_origin_counterexample :
  let event := Demo.request "GET" [("origin", EmptyString)] None in
  let allowed := ["https://ok.com"] in
  headers event !! "origin" = Some EmptyString
  /\ ~ In EmptyString allowed
  /\ result_headers
       (snd (handler Demo.runtime (Demo.builder (Some allowed) None)
               (Demo.config [] None None) event Demo.context Demo.now))
     !! "Access-Control-Allow-Origin" = Some "*".
Proof.
  split; [reflexivity|]. split; [|vm_compute; reflexivity].
  intros [H|[]]. discriminate.
Qed.

(** C6 (amended): on every response, success or error, the header
    [Access-Control-Allow-Origin] is [validateOrigin] of the request's
    [origin] header and the whitelist: the wildcard without a whitelist; the
    origin itself when a whitelist contains a declared, non-empty origin;
    the text [null] when a whitelist does not contain a declared, non-empty
    origin; the wildcard when a whitelist is configured and the origin is
    absent or empty. *)
Theorem C6_origin_policy rt builderConfig config event context now :
  let value := validateOrigin (headers event !! "origin")
                              (corsOriginWhitelist builderConfig) in
  result_headers (snd (handler rt builderConfig config event context now))
    !! "Access-Control-Allow-Origin" = Some value
  /\ (corsOriginWhitelist builderConfig = None -> value = "*")
  /\ (forall allowed origin,
        corsOriginWhitelist builderConfig = Some allowed ->
        headers event !! "origin" = Some origin -> origin <> EmptyString ->
        (origin ∈ allowed -> value = origin)
        /\ (origin ∉ allowed -> value = "null"))
  /\ (forall allowed,
        corsOriginWhitelist builderConfig = Some allowed ->
        headers event !! "origin" = None
        \/ headers event !! "origin" = Some EmptyString ->
        value = "*").
Proof.
  intros value. split; [|split; [|split]].
  - rewrite handler_headers. apply response_headers_origin.
  - intros Hnone. unfold value. rewrite Hnone. reflexivity.
  - intros allowed origin Hwl Horigin Hne. unfold value.
    rewrite Hwl, Horigin. simpl.
    destruct origin; [congruence|]. simpl.
    split; intros Hin.
    + rewrite bool_decide_eq_true_2 by assumption. reflexivity.
    + rewrite bool_decide_eq_false_2 by assumption. reflexivity.
  - intros allowed Hwl [Horigin|Horigin]; unfold value;
      rewrite Hwl, Horigin; reflexivity.
Qed.

(** C6 (witness): the scenario of the specification, and a listed origin. *)
Lemma C6_origin_policy_witness :
  let header origin :=
    result_headers
      (snd (handler Demo.runtime (Demo.builder (Some ["https://ok.com"]) None)
              (Demo.config [] None None)
              (Demo.request "GET" [("origin", origin)] None)
              Demo.context Demo.now))
    !! "Access-Control-Allow-Origin" in
  header "https://evil.com" = Some "null" /\ header "https://ok.com" = Some "https://ok.com".
Proof.
  intros header. split.
  - destruct (C6_origin_policy Demo.runtime (Demo.builder (Some ["https://ok.com"]) None)
                (Demo.config [] None None)
                (Demo.request "GET" [("origin", "https://evil.com")] None)
                Demo.context Demo.now) as (Hheader & _ & Hlisted & _).
    destruct (Hlisted ["https://ok.com"] "https://evil.com") as [_ Hnull];
      [reflexivity|reflexivity|discriminate|].
    unfold header. rewrite Hheader, Hnull; [reflexivity|].
    intros Hin. apply list_elem_of_singleton in Hin. discriminate.
  - destruct (C6_origin_policy Demo.runtime (Demo.builder (Some ["https://ok.com"]) None)
                (Demo.config [] None None)
                (Demo.request "GET" [("origin", "https://ok.com")] None)
                Demo.context Demo.now) as (Hheader & _ & Hlisted & _).
    destruct (Hlisted ["https://ok.com"] "https://ok.com") as [Hecho _];
      [reflexivity|reflexivity|discriminate|].
    unfold header. rewrite Hheader, Hecho; [reflexivity|].
    apply list_elem_of_singleton. reflexivity.
Defined.

(** ** Claims about the content-type check *)

Lemma contentTypeGate_spec event :
  contentTypeGate event =
    if bool_decide (httpMethod event ∈ ["POST"; "PUT"]) && negb (declares_json event)
    then Throw (ThrownError (new_Error "Content-Type must be application/json"))
    else Normal tt.
Proof. reflexivity. Qed.

(** A plain [Error] matches the rules that list [Error] itself, and no other. *)
Lemma plain_error_status config message :
  no_user_rule_matches config (ThrownError (new_Error message)) = true ->
  classify config (ThrownError (new_Error message)) = 500%N.
Proof. intros Hno. rewrite (classify_builtin _ _ Hno). reflexivity. Qed.

(** C10 (counterexample): a POST that declares [application/json] under the
    header name [Content-Type] is rejected by the check, with status 500 and
    before any step of the pipeline. *)
Lemma C10_header_case_counterexample :
  let event := Demo.request "POST" [("Content-Type", "application/json")] None in
  let run := handler Demo.runtime (Demo.builder None None)
                     (Demo.config [Demo.stage Returns] None None)
                     event Demo.context Demo.now in
  declares_json_any_case event
  /\ contentTypeGate event
     = Throw (ThrownError (new_Error "Content-Type must be application/json"))
  /\ fst run = []
  /\ statusCode (snd run) = 500%N.
Proof.
  split; [|repeat split; vm_compute; reflexivity].
  exists "Content-Type", "application/json". repeat split; vm_compute; reflexivity.
Qed.

(** C10 (amended): a POST or PUT request whose header stored under the exact
    lower-case name [content-type] is absent or does not contain
    [application/json] fails at once with the content-type error: no
    validation, reflection or stage runs, and the status is 500 when no rule
    of the user lists [Error].  A request with another method, or whose
    [content-type] header contains [application/json], passes the check and
    the run goes on with validation and reflection. *)
Theorem C10_content_type_gate rt builderConfig config event context now :
  let contentTypeError :=
    ThrownError (new_Error "Content-Type must be application/json") in
  let run := handler rt builderConfig config event context now in
  (httpMethod event ∈ ["POST"; "PUT"] -> declares_json event = false ->
   run = ([], catch_block builderConfig config event context now contentTypeError)
   /\ (no_user_rule_matches config contentTypeError = true ->
       statusCode (snd run) = 500%N))
  /\ (httpMethod event ∉ ["POST"; "PUT"] \/ declares_json event = true ->
      contentTypeGate event = Normal tt
      /\ prelude rt config event = prepare rt config event).
Proof.
  intros contentTypeError run. split.
  - intros Hmethod Hjson.
    assert (contentTypeGate event = Throw contentTypeError) as Hgate.
    { rewrite contentTypeGate_spec, Hjson.
      rewrite bool_decide_eq_true_2 by assumption. reflexivity. }
    unfold run. rewrite (handler_rejected _ _ _ _ _ _ _ Hgate).
    split; [reflexivity|]. intros Hno. simpl.
    apply plain_error_status, Hno.
  - intros Hpass.
    assert (contentTypeGate event = Normal tt) as Hgate.
    { rewrite contentTypeGate_spec. destruct Hpass as [Hmethod|Hjson].
      - rewrite bool_decide_eq_false_2 by assumption. reflexivity.
      - rewrite Hjson, andb_false_r. reflexivity. }
    split; [exact Hgate|]. apply prelude_passed, Hgate.
Qed.

(** C10 (witness): a PUT of [text/plain] is rejected with 500 before any
    step; a POST of [application/json; charset=utf-8] passes the check. *)
Lemma C10_content_type_gate_witness :
  let run method contentType :=
    handler Demo.runtime (Demo.builder None None)
            (Demo.config [Demo.stage Returns] None None)
            (Demo.request method [("content-type", contentType)] None)
            Demo.context Demo.now in
  fst (run "PUT" "text/plain") = []
  /\ statusCode (snd (run "PUT" "text/plain")) = 500%N
  /\ contentTypeGate
       (Demo.request "POST" [("content-type", "application/json; charset=utf-8")] None)
     = Normal tt.
Proof.
  intros run.
  destruct (C10_content_type_gate Demo.runtime (Demo.builder None None)
              (Demo.config [Demo.stage Returns] None None)
              (Demo.request "PUT" [("content-type", "text/plain")] None)
              Demo.context Demo.now) as [Hreject _].
  destruct Hreject as [Hrun Hstatus];
    [apply elem_of_cons; right; apply elem_of_cons; left; reflexivity
    |reflexivity|].
  destruct (C10_content_type_gate Demo.runtime (Demo.builder None None)
              (Demo.config [Demo.stage Returns] None None)
              (Demo.request "POST"
                 [("content-type", "application/json; charset=utf-8")] None)
              Demo.context Demo.now) as [_ Hpass].
  destruct Hpass as [Hgate _]; [right; reflexivity|].
  split; [unfold run; rewrite Hrun; reflexivity|].
  split; [apply Hstatus; reflexivity|exact Hgate].
Defined.

(** ** Claims about the error classifier *)

(** C3 (defect of the code): rules are tried in ascending order of status
    code, not user rules first.  A user rule sending [RequestTimeoutError]
    to 504 loses to the built-in 408 rule, one sending
    [SchemaValidationError] to 422 loses to the built-in 400 rule, and a
    user rule for 408 is replaced by the built-in one, so that its error
    gets 500.  User classes listed for 400 are kept next to the validation
    error. *)
Theorem C3_builtin_rule_precedes_user_rule :
  let timedOut := ThrownError (new_RequestTimeoutError Demo.runtime) in
  let invalid := ThrownError (new_SchemaValidationError "Validation failed" []) in
  let busy := CustomError "BusyError" BaseError in
  let thrown cls := ThrownError {| error_class := cls;
                                   error_message := "failed";
                                   error_errors := None |} in
  errorMapping (Demo.config [] (Some [(504%N, [RequestTimeoutError])]) None)
  = [(400%N, [SchemaValidationError]); (408%N, [RequestTimeoutError]);
     (413%N, [PayloadTooLargeError]); (504%N, [RequestTimeoutError])]
  /\ classify (Demo.config [] (Some [(504%N, [RequestTimeoutError])]) None) timedOut
     = 408%N
  /\ statusCode
       (snd (handler Demo.runtime (Demo.builder None None)
               (Demo.config [Demo.stage (fun _ => ReturnsPromise Pending)]
                            (Some [(504%N, [RequestTimeoutError])]) None)
               (Demo.request "GET" [] None) Demo.context Demo.now))
     = 408%N
  /\ classify (Demo.config [] (Some [(422%N, [SchemaValidationError])]) None) invalid
     = 400%N
  /\ statusCode
       (snd (handler Demo.runtime (Demo.builder None None)
               (Demo.config [] (Some [(422%N, [SchemaValidationError])])
                            (Some (JsObject [])))
               (Demo.request "POST" [("content-type", "application/json")] (Some "{}"))
               Demo.context Demo.now))
     = 400%N
  /\ classify (Demo.config [] (Some [(408%N, [busy])]) None) (thrown busy) = 500%N
  /\ classify (Demo.config [] (Some [(400%N, [busy])]) None) (thrown busy) = 400%N
  /\ classify (Demo.config [] (Some [(400%N, [busy])]) None) invalid = 400%N.
Proof. repeat split; vm_compute; reflexivity. Qed.

(** ** Claims about validation findings *)

Lemma error_findings_shape error f :
  f ∈ error_findings error -> exists msg, f = finding (error_key error) msg.
Proof.
  unfold error_findings.
  destruct (String.eqb (keyword error) "errorMessage"),
           (params_errors (params error)) as [errs|].
  - intros Hin. apply list_elem_of_In, in_flat_map in Hin as (kw & _ & Hin).
    destruct (schema error); try contradiction.
    destruct (truthy _); [|contradiction].
    destruct Hin as [<-|[]]. eauto.
  - destruct (message error) as [m|]; [|intros H; inversion H].
    destruct (Str.nonempty m); [|intros H; inversion H].
    intros Hin. apply list_elem_of_singleton in Hin. eauto.
  - destruct (message error) as [m|]; [|intros H; inversion H].
    destruct (Str.nonempty m); [|intros H; inversion H].
    intros Hin. apply list_elem_of_singleton in Hin. eauto.
  - destruct (message error) as [m|]; [|intros H; inversion H].
    destruct (Str.nonempty m); [|intros H; inversion H].
    intros Hin. apply list_elem_of_singleton in Hin. eauto.
Qed.

(** Every finding of [formatErrors] is an object [{key, message}]. *)
Lemma formatErrors_shape errors f :
  f ∈ formatErrors errors -> exists key msg, f = finding key msg.
Proof.
  destruct errors as [errors|]; simpl; [|intros H; inversion H].
  intros Hin. apply list_elem_of_In, in_flat_map in Hin as (error & _ & Hin).
  apply list_elem_of_In, error_findings_shape in Hin as [msg ->]. eauto.
Qed.

(** Read through [schemaPath], [keyword] and [params], a finding has
    nothing to show but its message. *)
Lemma validation_entry_of_finding key msg :
  validation_entry (finding key msg)
  = JsObject [("path", JsUndefined); ("message", msg);
              ("keyword", JsUndefined); ("params", JsUndefined)].
Proof. reflexivity. Qed.

(** C8 (defect of the code): the entries of [validationErrors] are built from
    the properties [schemaPath], [keyword] and [params] of findings that
    only have [key] and [message].  For a body that lacks the required
    property [password] the entry holds the message and three [undefined]
    properties, and the serialised body shows the message alone. *)
Theorem C8_validation_entries_lack_rule_fields :
  let config := Demo.config [] None (Some (JsObject [])) in
  let event := Demo.request "POST" [("content-type", "application/json")] (Some "{}") in
  let run := handler Demo.runtime (Demo.builder None None) config event
                     Demo.context Demo.now in
  let text := "must have required property 'password'" in
  let thrown :=
    ThrownError (new_SchemaValidationError "Validation failed"
                   [finding "password" (JsString text)]) in
  fst run = [ValidateBody (JsObject [])]
  /\ snd run = catch_block (Demo.builder None None) config event
                 Demo.context Demo.now thrown
  /\ statusCode (snd run) = 400%N
  /\ get_property "validationErrors" (errorBody config Demo.context Demo.now thrown)
     = JsArray [JsObject [("path", JsUndefined); ("message", JsString text);
                          ("keyword", JsUndefined); ("params", JsUndefined)]]
  /\ result_body (snd run)
     = Json.render
         (JsObject [("message", JsString "Validation failed");
                    ("code", JsNumber 400);
                    ("requestId", JsString "req-1");
                    ("timestamp", JsString Demo.now);
                    ("validationErrors",
                     JsArray [JsObject [("message", JsString text)]])]).
Proof. repeat split; vm_compute; reflexivity. Qed.

Lemma error_key_positional error :
  pathSegments error <> [] ->
  error_key error = Str.join "." (pathSegments error).
Proof.
  intros Hne. unfold error_key.
  destruct (pathSegments error); [congruence|reflexivity].
Qed.

Lemma error_key_root_required error name :
  pathSegments error = [] ->
  missingProperty (params error) = Some name -> name <> EmptyString ->
  error_key error = name.
Proof.
  intros Hroot Hmissing Hne. unfold error_key. rewrite Hroot, Hmissing. simpl.
  destruct name; [congruence|reflexivity].
Qed.

(** C9 (defect of the code): the branch that appends the missing field to
    the parent path is only reached when the path is empty.  For the
    required field [email] missing from the object at [/user] the key is
    [user], not [user.email]; at the root the key is the field name. *)
Theorem C9_nested_required_key_omits_field :
  let error := Demo.required "/user" "email" in
  missingProperty (params error) = Some "email"
  /\ pathSegments error = ["user"]
  /\ error_key error = "user"
  /\ formatErrors (Some [error])
     = [finding "user" (JsString "must have required property 'email'")]
  /\ error_key (Demo.required "/user/address" "city") = "user.address"
  /\ error_key (Demo.required EmptyString "email") = "email".
Proof. repeat split; vm_compute; reflexivity. Qed.

(** ** The deadline *)

Lemma effective_timeout_default config :
  timeoutMs config = None -> effective_timeout config = 29000%N.
Proof. intros H. unfold effective_timeout. rewrite H. reflexivity. Qed.

(** A run whose chain is still pending when the deadline fires answers with
    the error response of a [RequestTimeoutError]: status and [code] are
    408 when no rule of the user matches that error. *)
Lemma deadline_response
    rt builderConfig config event context now steps0 event' query0 steps1 :
  prelude rt config event = (steps0, Normal (event', query0)) ->
  run_handlers (handlers config) 0 query0 event' = (steps1, Pending) ->
  let timedOut := ThrownError (new_RequestTimeoutError rt) in
  let response := snd (handler rt builderConfig config event context now) in
  response = catch_block builderConfig config event context now timedOut
  /\ (no_user_rule_matches config timedOut = true ->
      statusCode response = 408%N
      /\ get_property "code" (errorBody config context now timedOut) = JsNumber 408).
Proof.
  intros Hpre Hrun timedOut response.
  assert (response = catch_block builderConfig config event context now timedOut)
    as ->.
  { unfold response. rewrite (handler_chain _ _ _ _ _ _ _ _ _ _ _ Hpre Hrun).
    reflexivity. }
  split; [reflexivity|]. intros Hno.
  pose proof (classify_builtin _ _ Hno) as Hstatus.
  split.
  - change (classify config timedOut = 408%N). unfold timedOut.
    rewrite Hstatus. reflexivity.
  - change (JsNumber (Z.of_N (classify config timedOut)) = JsNumber 408).
    unfold timedOut. rewrite Hstatus. reflexivity.
Qed.

(** * Further properties of the code *)

(** ** The [email] format *)

Section RegexFacts.
Import Regex.

Lemma matches_nil_app r1 r2 (s : list N) :
  Matches (Seq r1 r2) s -> s = [] -> Matches r1 [] /\ Matches r2 [].
Proof.
  intros H. inversion H as [| |? ? s1 s2 H1 H2| | | |]; subst.
  intros Heq. apply app_eq_nil in Heq as [-> ->]. auto.
Qed.

Lemma nullable_spec r : nullable r = true <-> Matches r [].
Proof.
  induction r as [| |p|r1 IH1 r2 IH2|r1 IH1 r2 IH2|r IH]; simpl.
  - split; [discriminate|]. intros H. inversion H.
  - split; [constructor|reflexivity].
  - split; [discriminate|]. intros H. inversion H.
  - rewrite andb_true_iff, IH1, IH2. split.
    + intros [H1 H2]. exact (MatchesSeq _ _ [] [] H1 H2).
    + intros H. exact (matches_nil_app _ _ _ H eq_refl).
  - rewrite orb_true_iff, IH1, IH2. split.
    + intros [H|H]; [apply MatchesAltL|apply MatchesAltR]; exact H.
    + intros H. inversion H; subst; auto.
  - split; [constructor|reflexivity].
Qed.

Lemma star_cons_inv r c (s : list N) :
  Matches (Star r) (c :: s) ->
  exists s1 s2, s = s1 ++ s2 /\ Matches r (c :: s1) /\ Matches (Star r) s2.
Proof.
  intros H. remember (Star r) as r' eqn:Hr. remember (c :: s) as s' eqn:Hs.
  revert s Hs.
  induction H as [| | | | | |r0 s1 s2 H1 _ H2 IH2]; try discriminate.
  injection Hr as ->. intros s Hs.
  destruct s1 as [|c1 s1]; simpl in Hs.
  - apply (IH2 eq_refl), Hs.
  - injection Hs as -> <-. eauto.
Qed.

Lemma seq_cons_inv r1 r2 c (s : list N) :
  Matches (Seq r1 r2) (c :: s) ->
  (exists s1 s2, s = s1 ++ s2 /\ Matches r1 (c :: s1) /\ Matches r2 s2)
  \/ (Matches r1 [] /\ Matches r2 (c :: s)).
Proof.
  intros H. inversion H as [| |? ? s1 s2 H1 H2 Hr Hs| | | |]; subst.
  destruct s1 as [|c1 s1]; simpl in Hs.
  - right. subst. auto.
  - injection Hs as -> <-. left. eauto.
Qed.

Lemma deriv_spec r c (s : list N) :
  Matches (deriv c r) s <-> Matches r (c :: s).
Proof.
  revert s.
  induction r as [| |p|r1 IH1 r2 IH2|r1 IH1 r2 IH2|r IH]; simpl; intros s.
  - split; intros H; inversion H.
  - split; intros H; inversion H.
  - destruct (p c) eqn:Hp; split; intros H; inversion H; subst.
    + constructor. exact Hp.
    + constructor.
    + congruence.
  - assert (Matches (Seq (deriv c r1) r2) s <->
            exists s1 s2, s = s1 ++ s2 /\ Matches r1 (c :: s1) /\ Matches r2 s2)
      as Hleft.
    { split.
      - intros H. inversion H as [| |? ? s1 s2 H1 H2| | | |]; subst.
        exists s1, s2. rewrite <- IH1. auto.
      - intros (s1 & s2 & -> & H1 & H2). constructor; [apply IH1, H1|exact H2]. }
    destruct (nullable r1) eqn:Hnull.
    + split.
      * intros H. inversion H as [| | |? ? ? Hl|? ? ? Hr| |]; subst.
        -- apply Hleft in Hl as (s1 & s2 & -> & H1 & H2).
           exact (MatchesSeq _ _ (c :: s1) s2 H1 H2).
        -- apply IH2 in Hr. apply nullable_spec in Hnull.
           exact (MatchesSeq _ _ [] (c :: s) Hnull Hr).
      * intros H. destruct (seq_cons_inv _ _ _ _ H) as [Hex|[_ H2]].
        -- apply MatchesAltL, Hleft, Hex.
        -- apply MatchesAltR, IH2, H2.
    + rewrite Hleft. split.
      * intros (s1 & s2 & -> & H1 & H2). exact (MatchesSeq _ _ (c :: s1) s2 H1 H2).
      * intros H. destruct (seq_cons_inv _ _ _ _ H) as [Hex|[H1 _]]; [exact Hex|].
        apply nullable_spec in H1. congruence.
  - split.
    + intros H. inversion H; subst;
        [apply MatchesAltL, IH1|apply MatchesAltR, IH2]; assumption.
    + intros H. inversion H; subst;
        [apply MatchesAltL, IH1|apply MatchesAltR, IH2]; assumption.
  - split.
    + intros H. inversion H as [| |? ? s1 s2 H1 H2| | | |]; subst.
      apply IH in H1. exact (MatchesStarApp _ (c :: s1) s2 H1 H2).
    + intros H. apply star_cons_inv in H as (s1 & s2 & -> & H1 & H2).
      constructor; [apply IH, H1|exact H2].
Qed.

(** The matcher decides the language. *)
Lemma test_spec r (s : list N) : test r s = true <-> Matches r s.
Proof.
  revert r. induction s as [|c s IH]; simpl; intros r.
  - apply nullable_spec.
  - rewrite IH. apply deriv_spec.
Qed.

Lemma matches_star_class p (s : list N) :
  Matches (Star (Class p)) s <-> Forall (fun c => p c = true) s.
Proof.
  split.
  - intros H. remember (Star (Class p)) as r eqn:Hr.
    induction H as [| | | | | |r0 s1 s2 H1 _ H2 IH2]; try discriminate.
    + constructor.
    + injection Hr as ->. inversion H1; subst. simpl. constructor; auto.
  - induction 1 as [|c s Hc _ IH]; [constructor|].
    exact (MatchesStarApp _ [c] s (MatchesClass _ _ Hc) IH).
Qed.

Lemma matches_plus_class p (s : list N) :
  Matches (Plus (Class p)) s <-> s <> [] /\ Forall (fun c => p c = true) s.
Proof.
  unfold Plus. split.
  - intros H. inversion H as [| |? ? s1 s2 H1 H2| | | |]; subst.
    inversion H1; subst. apply matches_star_class in H2. simpl.
    split; [discriminate|constructor; assumption].
  - intros [Hne Hall]. destruct s as [|c s]; [congruence|].
    inversion Hall; subst.
    apply (MatchesSeq _ _ [c] s); [constructor; assumption|].
    apply matches_star_class. assumption.
Qed.

Lemma matches_literal k (s : list N) : Matches (Class (N.eqb k)) s <-> s = [k].
Proof.
  split.
  - intros H. inversion H as [|? c Hc| | | | |]; subst.
    apply N.eqb_eq in Hc. subst. reflexivity.
  - intros ->. constructor. apply N.eqb_refl.
Qed.

End RegexFacts.

(** The language of the [email] pattern. *)
Lemma email_pattern_language (data : list N) :
  emailFormat_validate data = true <->
  exists local domain tld,
    data = local ++ [64%N] ++ domain ++ [46%N] ++ tld
    /\ email_part local /\ email_part domain /\ email_part tld.
Proof.
  unfold emailFormat_validate, email_pattern, email_part.
  rewrite test_spec. split.
  - intros H.
    inversion H as [| |? ? local s1 Hl H1| | | |]; subst.
    inversion H1 as [| |? ? at_ s2 Ha H2| | | |]; subst.
    inversion H2 as [| |? ? domain s3 Hd H3| | | |]; subst.
    inversion H3 as [| |? ? dot tld Hdot Ht| | | |]; subst.
    apply matches_literal in Ha, Hdot. subst.
    apply matches_plus_class in Hl, Hd, Ht.
    exists local, domain, tld. auto.
  - intros (local & domain & tld & -> & Hl & Hd & Ht).
    repeat apply MatchesSeq; try apply matches_plus_class; try assumption;
      apply matches_literal; reflexivity.
Qed.

(** X1: the [email] format accepts exactly the texts of the shape
    [local@domain.tld] in which the three parts are non-empty and hold
    neither white space nor [@] (a part may itself hold dots). *)
Theorem email_format_accepts_exactly (data : list N) :
  emailFormat_validate data = true <->
  exists local domain tld,
    data = local ++ [64%N] ++ domain ++ [46%N] ++ tld
    /\ email_part local /\ email_part domain /\ email_part tld.
Proof. apply email_pattern_language. Qed.

Lemma email_part_facts part :
  email_part part ->
  count_occ N.eq_dec part 64%N = 0%nat
  /\ Forall (fun c => is_whitespace c = false) part.
Proof.
  intros [_ Hall]. induction Hall as [|c part Hc _ [IHat IHws]]; simpl.
  - split; [reflexivity|constructor].
  - unfold not_space_nor_at in Hc. apply negb_true_iff, orb_false_iff in Hc as [Hws Hat].
    apply N.eqb_neq in Hat. split.
    + destruct (N.eq_dec c 64); [congruence|exact IHat].
    + constructor; assumption.
Qed.

(** X2: a text the [email] format accepts holds exactly one [@] and no
    white space, and neither starts nor ends with [@]. *)
Theorem email_format_accepted_shape (data : list N) :
  emailFormat_validate data = true ->
  count_occ N.eq_dec data 64%N = 1%nat
  /\ Forall (fun c => is_whitespace c = false) data
  /\ head data <> Some 64%N
  /\ last data <> Some 64%N.
Proof.
  intros H. apply email_pattern_language in H
    as (local & domain & tld & -> & Hl & Hd & Ht).
  destruct (email_part_facts _ Hl) as [Hl0 Hlw].
  destruct (email_part_facts _ Hd) as [Hd0 Hdw].
  destruct (email_part_facts _ Ht) as [Ht0 Htw].
  split; [|split; [|split]].
  - rewrite !count_occ_app, Hl0, Hd0, Ht0. reflexivity.
  - repeat (apply Forall_app; split); try assumption; repeat constructor.
  - destruct Hl as [Hne _]. destruct local as [|c local]; [congruence|]. simpl.
    intros [= ->]. simpl in Hl0. discriminate.
  - destruct Ht as [Hne _].
    destruct (exists_last Hne) as (front & x & ->).
    intros Hlast. apply last_Some in Hlast as [rest Heq].
    replace (local ++ [64%N] ++ domain ++ [46%N] ++ front ++ [x])
      with ((local ++ [64%N] ++ domain ++ [46%N] ++ front) ++ [x]) in Heq
      by (rewrite <- !app_assoc; reflexivity).
    apply app_inj_tail in Heq as [_ ->].
    rewrite count_occ_app in Ht0. simpl in Ht0. lia.
Qed.

(** X2 (witness) *)
Lemma email_format_accepted_shape_witness :
  count_occ N.eq_dec (code_units "a@b.com") 64%N = 1%nat
  /\ emailFormat_validate (code_units "bad") = false
  /\ emailFormat_validate (code_units "a b@c.de") = false
  /\ emailFormat_validate (code_units "a@b") = false.
Proof.
  split; [|repeat split; vm_compute; reflexivity].
  apply (email_format_accepted_shape (code_units "a@b.com")).
  vm_compute. reflexivity.
Defined.

(** ** Further properties of a run *)

Section MoreRunFacts.
Variable rt : Runtime.
Variable builderConfig : HandlerBuilderConfig.
Variable config : HandlerConfig.
Implicit Types (event : APIGatewayProxyEvent) (context : Context) (now : string).

(** In every run the stages invoked are counted from 0 without a gap, and
    there are no more of them than stages in the chain. *)
Lemma stages_counted_from_zero event context now :
  exists reached,
    (reached <= List.length (handlers config))%nat
    /\ stage_indices (fst (handler rt builderConfig config event context now))
       = seq 0 reached.
Proof.
  destruct (prelude rt config event) as [steps0 [[event' query]|e]] eqn:Hpre.
  - destruct (run_handlers (handlers config) 0 query event')
      as [steps1 observable] eqn:Hrun.
    rewrite (handler_chain _ _ _ _ _ _ _ _ _ _ _ Hpre Hrun). simpl.
    destruct (prelude_facts _ _ _ _ _ Hpre) as [Hnone _].
    destruct (run_handlers_order _ _ _ _ _ _ Hrun) as [Hseq Hlen].
    exists (List.length steps1). split; [exact Hlen|].
    rewrite stage_indices_app, Hnone. exact Hseq.
  - rewrite (handler_prelude_throws _ _ _ _ _ _ _ _ Hpre). simpl.
    destruct (prelude_facts _ _ _ _ _ Hpre) as [Hnone _].
    exists 0%nat. split; [lia|exact Hnone].
Qed.

Lemma run_handlers_trace stages index query event steps observable :
  run_handlers stages index query event = (steps, observable) ->
  chain_trace event stages index query steps.
Proof.
  revert index query steps.
  induction stages as [|createHandler stages IH]; simpl; intros index query steps H.
  - injection H as <- _. constructor.
  - destruct (run_stage createHandler query event) as [v|e|] eqn:Hstage.
    + destruct (run_handlers stages (S index) v event) as [steps' p] eqn:Hrest.
      injection H as <- <-. eapply chain_trace_next; [exact Hstage|].
      eapply IH, Hrest.
    + injection H as <- _. apply chain_trace_stop. rewrite Hstage. discriminate.
    + injection H as <- _. apply chain_trace_stop. rewrite Hstage. discriminate.
Qed.

(** X3: after a successful prelude, the stage invocations of the run are
    the chain's own: the stages of [config.handlers] in their order, each
    under its position and each on the value the stage before it delivered
    (the first on the initial query), up to the first stage that delivers
    no value.  After a failed prelude no stage is invoked. *)
Theorem stage_trace_follows_chain event context now :
  (forall steps0 event' query0,
     prelude rt config event = (steps0, Normal (event', query0)) ->
     exists steps1,
       fst (handler rt builderConfig config event context now) = steps0 ++ steps1
       /\ stage_indices steps0 = []
       /\ chain_trace event' (handlers config) 0 query0 steps1)
  /\ (forall steps0 e,
       prelude rt config event = (steps0, Throw e) ->
       fst (handler rt builderConfig config event context now) = steps0
       /\ stage_indices steps0 = []).
Proof.
  split.
  - intros steps0 event' query0 Hpre.
    destruct (run_handlers (handlers config) 0 query0 event')
      as [steps1 observable] eqn:Hrun.
    exists steps1. rewrite (handler_chain _ _ _ _ _ _ _ _ _ _ _ Hpre Hrun).
    split; [reflexivity|]. split.
    + apply (prelude_facts _ _ _ _ _ Hpre).
    + eapply run_handlers_trace, Hrun.
  - intros steps0 e Hpre. rewrite (handler_prelude_throws _ _ _ _ _ _ _ _ Hpre).
    split; [reflexivity|]. apply (prelude_facts _ _ _ _ _ Hpre).
Qed.

(** X4: a stage is invoked with exactly what its predecessor in the chain
    delivered.  When the stages before [previous] succeeded, [previous] is
    invoked on the value [query] they delivered, and when [previous]
    delivers [v] on it, the stage after it in the chain is invoked on [v];
    the first stage of the chain is invoked on the initial query. *)
Theorem stage_invoked_with_delivered_value
    event context now steps0 event' query0 pre previous createHandler post
    steps1 query v :
  prelude rt config event = (steps0, Normal (event', query0)) ->
  handlers config = pre ++ previous :: createHandler :: post ->
  run_handlers pre 0 query0 event' = (steps1, Resolves query) ->
  run_stage previous query event' = Resolves v ->
  (pre = [] -> query = query0)
  /\ exists rest,
      fst (handler rt builderConfig config event context now)
      = steps0 ++ steps1
        ++ InvokeStage (List.length pre) query
        :: InvokeStage (S (List.length pre)) v :: rest.
Proof.
  intros Hpre Hstages Hrun Hprevious. split.
  - intros ->. simpl in Hrun. congruence.
  - destruct (run_handlers (handlers config) 0 query0 event')
      as [steps observable] eqn:Hall.
    rewrite (handler_chain _ _ _ _ _ _ _ _ _ _ _ Hpre Hall). simpl.
    rewrite Hstages, (run_handlers_app _ _ _ _ _ _ _ Hrun) in Hall.
    simpl in Hall. rewrite Hprevious in Hall.
    destruct (run_stage createHandler v event') as [v'|e|].
    + destruct (run_handlers post _ _ _) as [rest p]. simpl in Hall.
      injection Hall as <- _. exists rest. reflexivity.
    + simpl in Hall. injection Hall as <- _. exists []. reflexivity.
    + simpl in Hall. injection Hall as <- _. exists []. reflexivity.
Qed.

Lemma prelude_query_is_object event steps event' query :
  prelude rt config event = (steps, Normal (event', query)) ->
  exists fields,
    query = JsObject fields
    /\ (initialQueryReflector config = None -> fields = []).
Proof.
  intros Hpre.
  assert (contentTypeGate event = Normal tt) as Hgate.
  { destruct (contentTypeGate event) as [[]|e] eqn:Hgate; [reflexivity|].
    rewrite (prelude_rejected _ _ _ _ Hgate) in Hpre. discriminate. }
  rewrite (prelude_passed _ _ _ Hgate) in Hpre. clear Hgate.
  unfold prepare in Hpre.
  unfold validate, lift, tell, throw, mbind, mret, Eff_bind, Eff_ret in Hpre.
  destruct (initialQueryReflector config) as [reflector|];
    repeat (simpl in *; case_match; simplify_eq); eexists; split;
      try reflexivity; try discriminate; reflexivity.
Qed.

(** X5: with an empty chain the result is the initial query itself.  It
    is an object, so it has a serialisation, [{}] without a query reflector:
    when that text fits the size cap the response is 200 with it as body,
    and otherwise the error response for a [PayloadTooLargeError].  The
    initial query is one whose numbers are safe integers. *)
Theorem empty_chain_answers_initial_query
    event context now steps0 event' query0 :
  handlers config = [] ->
  prelude rt config event = (steps0, Normal (event', query0)) ->
  safe_integers query0 = true ->
  let run := handler rt builderConfig config event context now in
  fst run = steps0
  /\ exists text,
      Json.stringify query0 = Some text
      /\ (initialQueryReflector config = None -> text = "{}")
      /\ ((byteLength text <= max_response_size builderConfig)%N ->
          snd run = {| statusCode := 200;
                       result_headers := response_headers builderConfig event;
                       result_body := text |})
      /\ ((max_response_size builderConfig < byteLength text)%N ->
          snd run = catch_block builderConfig config event context now
                      (ThrownError (new_PayloadTooLargeError rt))).
Proof.
  intros Hnone Hpre Hsafe run.
  assert (run_handlers (handlers config) 0 query0 event' = ([], Resolves query0))
    as Hrun by (rewrite Hnone; reflexivity).
  assert (run = (steps0,
                 settle builderConfig config event context now
                   (respond rt builderConfig event' query0))) as ->.
  { unfold run. rewrite (handler_chain _ _ _ _ _ _ _ _ _ _ _ Hpre Hrun), app_nil_r.
    reflexivity. }
  split; [reflexivity|].
  destruct (prelude_query_is_object _ _ _ _ Hpre) as (fields & -> & Hfields).
  exists (Json.render (JsObject fields)). split; [reflexivity|].
  split; [intros Hno; rewrite (Hfields Hno); reflexivity|]. split.
  - intros Hfits. cbn [snd].
    rewrite (respond_fits rt builderConfig event' (JsObject fields)
               (Json.render (JsObject fields)) eq_refl Hfits).
    cbn [settle].
    destruct (prelude_facts _ _ _ _ _ Hpre) as [_ Hsame].
    destruct (Hsame _ _ eq_refl) as [Hheaders _].
    rewrite (response_headers_same _ _ _ Hheaders). reflexivity.
  - intros Hover. cbn [snd].
    rewrite (respond_oversized rt builderConfig event' (JsObject fields)
               (Json.render (JsObject fields)) eq_refl Hover).
    reflexivity.
Qed.

(** X6: a body that fails the schema is answered from the validation error
    before any reflection or stage: the error carries the text [Validation
    failed] and the findings of [formatErrors], the body lists one
    [validationErrors] entry per finding, and the status is 400 when no rule
    of the user matches a [SchemaValidationError]. *)
Theorem invalid_body_is_rejected
    event context now schema data validator :
  contentTypeGate event = Normal tt ->
  bodySchema config = Some schema ->
  JSON_parse rt (body_or event "{}") = Normal data ->
  ajv_compile rt schema = Normal validator ->
  valid (validator data) = false ->
  let findings := formatErrors (validator_errors (validator data)) in
  let invalid :=
    ThrownError (new_SchemaValidationError "Validation failed" findings) in
  handler rt builderConfig config event context now
  = ([ValidateBody data], catch_block builderConfig config event context now invalid)
  /\ get_property "validationErrors" (errorBody config context now invalid)
     = JsArray (map validation_entry findings)
  /\ (no_user_rule_matches config invalid = true ->
      statusCode (catch_block builderConfig config event context now invalid)
      = 400%N).
Proof.
  intros Hgate Hschema Hparse Hcompile Hinvalid findings invalid.
  split; [|split].
  - unfold handler, try_block. rewrite (prelude_passed _ _ _ Hgate).
    unfold prepare. rewrite Hschema.
    unfold validate, lift, tell, throw, mbind, mret, Eff_bind, Eff_ret.
    rewrite Hparse, Hcompile, Hinvalid. reflexivity.
  - reflexivity.
  - intros Hno. pose proof (classify_builtin _ _ Hno) as Hstatus.
    etransitivity; [exact Hstatus|reflexivity].
Qed.

End MoreRunFacts.

(** X3 (witness): three stages, the second of which throws: the trace is
    that of the chain, and it is not the trace of the chain reversed. *)
Lemma stage_trace_follows_chain_witness :
  let first := Demo.stage (fun _ => Returns (JsNumber 7)) in
  let second := Demo.throwing BaseError "failed" in
  let third := Demo.stage Returns in
  let request := Demo.request "GET" [] None in
  let run := handler Demo.runtime (Demo.builder None None)
                     (Demo.config [first; second; third] None None)
                     request Demo.context Demo.now in
  fst run = [InvokeStage 0 (JsObject []); InvokeStage 1 (JsNumber 7)]
  /\ chain_trace request [first; second; third] 0 (JsObject []) (fst run)
  /\ ~ chain_trace request [third; second; first] 0 (JsObject []) (fst run).
Proof.
  intros first second third request run.
  destruct (stage_trace_follows_chain
              Demo.runtime (Demo.builder None None)
              (Demo.config [first; second; third] None None)
              request Demo.context Demo.now) as [Hok _].
  destruct (Hok [] request (JsObject []) eq_refl) as (steps1 & Hsteps & _ & Htrace).
  change (fst run = steps1) in Hsteps.
  assert (fst run = [InvokeStage 0 (JsObject []); InvokeStage 1 (JsNumber 7)])
    as Hrun by reflexivity.
  split; [exact Hrun|]. split.
  - rewrite Hsteps. exact Htrace.
  - rewrite Hrun. intros H.
    inversion H as [| |? ? ? ? v steps Hstage Hrest]; subst.
    inversion Hrest; subst;
      match goal with
      | Hthird : run_stage _ (JsObject []) _ = Resolves (JsNumber 7) |- _ =>
          vm_compute in Hthird; discriminate
      end.
Defined.

(** X4 (witness): the second stage receives what the first returned. *)
Lemma stage_invoked_with_delivered_value_witness :
  exists rest,
    fst (handler Demo.runtime (Demo.builder None None)
           (Demo.config [Demo.stage (fun _ => Returns (JsNumber 7));
                         Demo.stage Returns] None None)
           (Demo.request "GET" [] None) Demo.context Demo.now)
    = [InvokeStage 0 (JsObject []); InvokeStage 1 (JsNumber 7)] ++ rest.
Proof.
  destruct (stage_invoked_with_delivered_value
              Demo.runtime (Demo.builder None None)
              (Demo.config [Demo.stage (fun _ => Returns (JsNumber 7));
                            Demo.stage Returns] None None)
              (Demo.request "GET" [] None) Demo.context Demo.now
              [] (Demo.request "GET" [] None) (JsObject [])
              [] (Demo.stage (fun _ => Returns (JsNumber 7))) (Demo.stage Returns) []
              [] (JsObject []) (JsNumber 7))
    as (_ & rest & Hrest); [reflexivity..|].
  exists rest. exact Hrest.
Defined.

(** X5 (witness): no stage and no reflector: the body is the empty object
    under the default cap, and a cap of one byte gives 413. *)
Lemma empty_chain_answers_initial_query_witness :
  let run cap := handler Demo.runtime (Demo.builder None cap)
                         (Demo.config [] None None)
                         (Demo.request "GET" [] None) Demo.context Demo.now in
  (statusCode (snd (run None)) = 200%N /\ result_body (snd (run None)) = "{}")
  /\ statusCode (snd (run (Some 1%N))) = 413%N.
Proof.
  intros run. split.
  - destruct (empty_chain_answers_initial_query
                Demo.runtime (Demo.builder None None) (Demo.config [] None None)
                (Demo.request "GET" [] None) Demo.context Demo.now
                [] (Demo.request "GET" [] None) (JsObject [])
                eq_refl eq_refl eq_refl)
      as (_ & text & Htext & Hempty & Hfits & _).
    rewrite (Hempty eq_refl) in Hfits. unfold run.
    rewrite Hfits; [split; reflexivity|]. vm_compute. discriminate.
  - destruct (empty_chain_answers_initial_query
                Demo.runtime (Demo.builder None (Some 1%N)) (Demo.config [] None None)
                (Demo.request "GET" [] None) Demo.context Demo.now
                [] (Demo.request "GET" [] None) (JsObject [])
                eq_refl eq_refl eq_refl)
      as (_ & text & Htext & Hempty & _ & Hover).
    rewrite (Hempty eq_refl) in Hover. unfold run.
    rewrite Hover; [reflexivity|]. vm_compute. reflexivity.
Defined.

(** X6 (witness): the empty object against a schema that requires
    [password]. *)
Lemma invalid_body_is_rejected_witness :
  let run :=
    handler Demo.runtime (Demo.builder None None)
            (Demo.config [Demo.stage Returns] None (Some (JsObject [])))
            (Demo.request "POST" [("content-type", "application/json")] None)
            Demo.context Demo.now in
  fst run = [ValidateBody (JsObject [])] /\ statusCode (snd run) = 400%N.
Proof.
  intros run.
  destruct (invalid_body_is_rejected
              Demo.runtime (Demo.builder None None)
              (Demo.config [Demo.stage Returns] None (Some (JsObject [])))
              (Demo.request "POST" [("content-type", "application/json")] None)
              Demo.context Demo.now (JsObject []) (JsObject [])
              (fun data =>
                 match data with
                 | JsObject fields =>
                     if is_undefined (get_property "password" fields)
                     then {| valid := false;
                             validator_errors :=
                               Some [Demo.required EmptyString "password"] |}
                     else {| valid := true; validator_errors := None |}
                 | _ => {| valid := false; validator_errors := Some [] |}
                 end))
    as (Hrun & _ & Hstatus); [reflexivity..|].
  unfold run. rewrite Hrun. split; [reflexivity|].
  apply Hstatus. reflexivity.
Defined.

Section GateFacts.
Variable rt : Runtime.
Variable builderConfig : HandlerBuilderConfig.
Variable config : HandlerConfig.
Implicit Types (event : APIGatewayProxyEvent) (context : Context) (now : string).

(** X7: validation is a pure gate.  When the body passes the schema, the
    run is the run of the same handler without a schema, preceded by the
    validation step: what the validator did to the parsed body reaches
    neither the reflectors, nor the stages, nor the response. *)
Theorem valid_body_changes_nothing
    event context now schema data validator :
  bodySchema config = Some schema ->
  JSON_parse rt (body_or event "{}") = Normal data ->
  ajv_compile rt schema = Normal validator ->
  valid (validator data) = true ->
  contentTypeGate event = Normal tt ->
  handler rt builderConfig config event context now
  = (ValidateBody data
       :: fst (handler rt builderConfig (without_schema config) event context now),
     snd (handler rt builderConfig (without_schema config) event context now)).
Proof.
  intros Hschema Hparse Hcompile Hvalid Hgate.
  assert (prepare rt config event
          = (ValidateBody data :: fst (prepare rt (without_schema config) event),
             snd (prepare rt (without_schema config) event))) as Hprep.
  { unfold prepare. rewrite Hschema. simpl.
    unfold validate, lift, tell, throw, mbind, mret, Eff_bind, Eff_ret.
    rewrite Hparse, Hcompile, Hvalid. simpl.
    repeat (case_match; simplify_eq; simpl in * ); reflexivity. }
  unfold handler, try_block. rewrite !(prelude_passed _ _ _ Hgate), Hprep.
  destruct (prepare rt (without_schema config) event) as [steps [[event' query]|e]];
    simpl; [|reflexivity].
  unfold mbind, Eff_bind, execute_chain. simpl.
  destruct (run_handlers (handlers config) 0 query event'). reflexivity.
Qed.

(** X8: when a schema is configured and [JSON.parse] throws on the body,
    the handler answers from that error; nothing is validated or reflected
    and no stage is invoked. *)
Theorem unparsable_body_is_rejected event context now schema e :
  contentTypeGate event = Normal tt ->
  bodySchema config = Some schema ->
  JSON_parse rt (body_or event "{}") = Throw e ->
  handler rt builderConfig config event context now
  = ([], catch_block builderConfig config event context now e).
Proof.
  intros Hgate Hschema Hparse.
  unfold handler, try_block. rewrite (prelude_passed _ _ _ Hgate).
  unfold prepare. rewrite Hschema.
  unfold lift, mbind, Eff_bind. rewrite Hparse. reflexivity.
Qed.

(** X9: when a body reflector is configured and no schema, the body is
    parsed with the empty text as fallback: a request without a body is
    answered from what [JSON.parse] throws on the empty text, before any
    reflection or stage. *)
Theorem body_reflector_needs_a_body event context now reflector e :
  contentTypeGate event = Normal tt ->
  bodySchema config = None ->
  initialBodyReflector config = Some reflector ->
  body event = None \/ body event = Some EmptyString ->
  JSON_parse rt EmptyString = Throw e ->
  handler rt builderConfig config event context now
  = ([], catch_block builderConfig config event context now e).
Proof.
  intros Hgate Hschema Hreflector Hbody Hparse.
  assert (body_or event EmptyString = EmptyString) as Hempty.
  { unfold body_or. destruct Hbody as [->| ->]; reflexivity. }
  unfold handler, try_block. rewrite (prelude_passed _ _ _ Hgate).
  unfold prepare. rewrite Hschema, Hreflector, Hempty.
  unfold lift, mbind, mret, Eff_bind, Eff_ret. simpl. rewrite Hparse. reflexivity.
Qed.

#[local] Arguments Json.stringify v : simpl never.
#[local] Arguments Json.render v : simpl never.

(** X10: what a successful prelude hands to the chain.  Without a body
    reflector, or when the reflected body is empty, the stages see the
    request as it came; otherwise they see it with the serialised reflected
    body in place of the body.  The query reflector reads that same event,
    and the initial query is a copy of what it yields, the empty object
    without a reflector. *)
Theorem prelude_hands_over event steps event' query :
  prelude rt config event = (steps, Normal (event', query)) ->
  (initialBodyReflector config = None -> event' = event)
  /\ (forall reflector,
        initialBodyReflector config = Some reflector ->
        exists source fields,
          JSON_parse rt (body_or event EmptyString) = Normal source
          /\ reflector source = Normal fields
          /\ headers event' = headers event
          /\ httpMethod event' = httpMethod event
          /\ body event' = match fields with
                           | [] => body event
                           | _ => Some (Json.render (JsObject fields))
                           end)
  /\ (initialQueryReflector config = None -> query = JsObject [])
  /\ (forall reflector,
        initialQueryReflector config = Some reflector ->
        exists fields, reflector event' = Normal fields /\ query = JsObject fields).
Proof.
  intros Hpre.
  assert (contentTypeGate event = Normal tt) as Hgate.
  { destruct (contentTypeGate event) as [[]|e] eqn:Hgate; [reflexivity|].
    rewrite (prelude_rejected _ _ _ _ Hgate) in Hpre. discriminate. }
  rewrite (prelude_passed _ _ _ Hgate) in Hpre. clear Hgate.
  unfold prepare in Hpre.
  unfold validate, lift, tell, throw, mbind, mret, Eff_bind, Eff_ret in Hpre.
  repeat split.
  - intros Hnone. rewrite Hnone in Hpre.
    repeat (simpl in *; case_match; simplify_eq); reflexivity.
  - intros reflector Hsome. rewrite Hsome in Hpre.
    destruct (JSON_parse rt (body_or event EmptyString)) as [source|e0] eqn:Hparse;
      [|repeat (simpl in *; case_match; simplify_eq)].
    destruct (reflector source) as [fields|e0] eqn:Hreflect;
      [|repeat (simpl in *; case_match; simplify_eq)].
    exists source, fields.
    destruct fields; repeat (simpl in *; case_match; simplify_eq); auto.
  - intros Hnone. rewrite Hnone in Hpre.
    repeat (simpl in *; case_match; simplify_eq); reflexivity.
  - intros reflector Hsome. rewrite Hsome in Hpre.
    repeat (simpl in *; case_match; simplify_eq); eauto.
Qed.

(** X11: on every response the header [Content-Type] is
    [application/json], and every other header except
    [Access-Control-Allow-Origin] is read from the configured headers when
    there are any, which then replace the default security headers
    altogether, and from the default security headers otherwise. *)
Theorem response_header_composition event context now :
  let sent :=
    result_headers (snd (handler rt builderConfig config event context now)) in
  sent !! "Content-Type" = Some "application/json"
  /\ (forall name,
        name <> "Content-Type" -> name <> "Access-Control-Allow-Origin" ->
        sent !! name
        = match config_headers builderConfig with
          | Some configured => configured !! name
          | None => DEFAULT_SECURITY_HEADERS !! name
          end).
Proof.
  intros sent. unfold sent. rewrite handler_headers. unfold response_headers.
  split.
  - apply lookup_insert_eq.
  - intros name Hct Hcors.
    rewrite !lookup_insert_ne by congruence.
    unfold securityHeaders. destruct (config_headers builderConfig); reflexivity.
Qed.

(** X12: the option [allowedMethods] has no effect on the handler. *)
Theorem allowedMethods_is_ignored methods event context now :
  handler rt (with_allowedMethods methods builderConfig) config event context now
  = handler rt builderConfig config event context now.
Proof.
  unfold handler, try_block.
  destruct (prelude rt config event) as [steps [[event' query]|e]]; [|reflexivity].
  unfold mbind, Eff_bind, execute_chain. simpl.
  destruct (run_handlers (handlers config) 0 query event') as [steps' observable].
  reflexivity.
Qed.

End GateFacts.

(** X7 (witness): a body with a password passes the schema; the run is the
    run without schema after the validation step. *)
Lemma valid_body_changes_nothing_witness :
  let event := Demo.request "POST" [("content-type", "application/json")]
                            (Some (Json.render valid_body)) in
  let run schema :=
    handler runtime_with_valid_body (Demo.builder None None)
            (Demo.config [Demo.stage Returns] None schema)
            event Demo.context Demo.now in
  run (Some (JsObject []))
  = (ValidateBody valid_body :: fst (run None), snd (run None)).
Proof.
  intros event run.
  exact (valid_body_changes_nothing
           runtime_with_valid_body (Demo.builder None None)
           (Demo.config [Demo.stage Returns] None (Some (JsObject [])))
           event Demo.context Demo.now (JsObject []) valid_body
           (fun data =>
              match data with
              | JsObject fields =>
                  if is_undefined (get_property "password" fields)
                  then {| valid := false;
                          validator_errors :=
                            Some [Demo.required EmptyString "password"] |}
                  else {| valid := true; validator_errors := None |}
              | _ => {| valid := false; validator_errors := Some [] |}
              end)
           eq_refl eq_refl eq_refl eq_refl eq_refl).
Defined.

(** X8 (witness): a body that is not JSON, with a schema configured. *)
Lemma unparsable_body_is_rejected_witness :
  let run :=
    handler Demo.runtime (Demo.builder None None)
            (Demo.config [Demo.stage Returns] None (Some (JsObject [])))
            (Demo.request "POST" [("content-type", "application/json")]
                          (Some "not json"))
            Demo.context Demo.now in
  fst run = [] /\ statusCode (snd run) = 500%N.
Proof.
  intros run. unfold run.
  rewrite (unparsable_body_is_rejected
             Demo.runtime (Demo.builder None None)
             (Demo.config [Demo.stage Returns] None (Some (JsObject [])))
             (Demo.request "POST" [("content-type", "application/json")]
                           (Some "not json"))
             Demo.context Demo.now (JsObject [])
             (ThrownError {| error_class := SyntaxError;
                             error_message := "Unexpected end of JSON input";
                             error_errors := None |})
             eq_refl eq_refl eq_refl).
  split; reflexivity.
Defined.

(** X9 (witness): a GET without body to a handler with a body reflector. *)
Lemma body_reflector_needs_a_body_witness :
  let run :=
    handler Demo.runtime (Demo.builder None None)
            (config_reflecting_name [Demo.stage Returns])
            (Demo.request "GET" [] None) Demo.context Demo.now in
  fst run = [] /\ statusCode (snd run) = 500%N.
Proof.
  intros run. unfold run.
  rewrite (body_reflector_needs_a_body
             Demo.runtime (Demo.builder None None)
             (config_reflecting_name [Demo.stage Returns])
             (Demo.request "GET" [] None) Demo.context Demo.now
             (fun source => Normal [("name", JsString "Al")])
             (ThrownError {| error_class := SyntaxError;
                             error_message := "Unexpected end of JSON input";
                             error_errors := None |})
             eq_refl eq_refl eq_refl (or_introl eq_refl) eq_refl).
  split; reflexivity.
Defined.

(** X10 (witness): the stages see the reflected body, serialised. *)
Lemma prelude_hands_over_witness :
  exists event',
    prelude Demo.runtime (config_reflecting_name [])
            (Demo.request "GET" [] (Some "{}"))
    = ([ReflectBody], Normal (event', JsObject []))
    /\ body event' = Some (Json.render (JsObject [("name", JsString "Al")])).
Proof.
  eexists. split; [reflexivity|].
  destruct (prelude_hands_over
              Demo.runtime (config_reflecting_name [])
              (Demo.request "GET" [] (Some "{}")) [ReflectBody] _ (JsObject [])
              eq_refl) as (_ & Hbody & _).
  destruct (Hbody _ eq_refl) as (source & fields & _ & Hfields & _ & _ & Hsent).
  injection Hfields as <-. exact Hsent.
Defined.

(** ** Further properties of the error path *)

Section IntKeyedLookup.
Context {V : Type}.
Implicit Types (obj : list (N * V)) (k : N) (v : V).

Lemma get_set_eq obj k v : IntKeyed.get k (IntKeyed.set k v obj) = Some v.
Proof.
  induction obj as [|[k' v'] rest IH]; simpl.
  - rewrite N.eqb_refl. reflexivity.
  - destruct (N.eqb_spec k k') as [->|Hne]; simpl.
    + rewrite N.eqb_refl. reflexivity.
    + destruct (N.ltb_spec k k'); simpl.
      * rewrite N.eqb_refl. reflexivity.
      * destruct (N.eqb_spec k k'); [congruence|exact IH].
Qed.

Lemma get_set_ne obj k k' v :
  k <> k' -> IntKeyed.get k' (IntKeyed.set k v obj) = IntKeyed.get k' obj.
Proof.
  intros Hne. induction obj as [|[k0 v0] rest IH]; simpl.
  - destruct (N.eqb_spec k' k); [congruence|reflexivity].
  - destruct (N.eqb_spec k k0) as [->|Hne0]; simpl.
    + destruct (N.eqb_spec k' k0); [congruence|reflexivity].
    + destruct (N.ltb_spec k k0); simpl.
      * destruct (N.eqb_spec k' k); [congruence|reflexivity].
      * destruct (N.eqb_spec k' k0); [reflexivity|exact IH].
Qed.

End IntKeyedLookup.

Section MoreClassifierFacts.
Variable config : HandlerConfig.

(** X13: the merged mapping.  Whatever the user wrote, the rule for 408 is
    the timeout error alone and the rule for 413 the payload error alone;
    the rule for 400 is the user's 400 classes followed by the validation
    error; every other code keeps the user's rule. *)
Theorem merged_mapping_rules :
  IntKeyed.get 408 (errorMapping config) = Some [RequestTimeoutError]
  /\ IntKeyed.get 413 (errorMapping config) = Some [PayloadTooLargeError]
  /\ IntKeyed.get 400 (errorMapping config)
     = Some (default [] (IntKeyed.get 400 (IntKeyed.of_literal (user_rules config)))
             ++ [SchemaValidationError])
  /\ forall code,
       code <> 400%N -> code <> 408%N -> code <> 413%N ->
       IntKeyed.get code (errorMapping config)
       = IntKeyed.get code (IntKeyed.of_literal (user_rules config)).
Proof.
  unfold errorMapping, user_rules. repeat split.
  - rewrite get_set_ne by discriminate. apply get_set_eq.
  - apply get_set_eq.
  - rewrite !get_set_ne by discriminate. apply get_set_eq.
  - intros code H400 H408 H413. rewrite !get_set_ne by congruence. reflexivity.
Qed.

Lemma builtin_bound e cls code :
  (code, [cls]) ∈ errorMapping config \/
  (exists classes, (code, classes ++ [cls]) ∈ errorMapping config) ->
  instanceOf (ThrownError e) cls = true ->
  (classify config (ThrownError e) <= code)%N.
Proof.
  intros Hin Hinst.
  assert (exists rule, rule ∈ errorMapping config
                       /\ rule_matches (ThrownError e) rule = true
                       /\ fst rule = code) as (rule & Hrule & Hm & Hcode).
  { destruct Hin as [Hin|[classes Hin]]; eexists; (split; [exact Hin|]);
      (split; [|reflexivity]); unfold rule_matches; simpl.
    - rewrite Hinst. reflexivity.
    - rewrite existsb_app. simpl. rewrite Hinst. apply orb_true_iff. right. reflexivity. }
  destruct (classify_first_match config e rule Hrule Hm)
    as (first & _ & _ & -> & Hleast).
  rewrite <- Hcode. apply Hleast; assumption.
Qed.

(** X14: no rule of the user can raise the status of the three errors the
    handler knows: a validation error is answered with a status of at most
    400, a timeout error of at most 408, a payload error of at most 413. *)
Theorem builtin_errors_status_bound e :
  (instanceOf (ThrownError e) SchemaValidationError = true ->
   (classify config (ThrownError e) <= 400)%N)
  /\ (instanceOf (ThrownError e) RequestTimeoutError = true ->
      (classify config (ThrownError e) <= 408)%N)
  /\ (instanceOf (ThrownError e) PayloadTooLargeError = true ->
      (classify config (ThrownError e) <= 413)%N).
Proof.
  destruct (errorMapping_builtin config) as (H413 & H408 & H400).
  repeat split; intros Hinst.
  - eapply builtin_bound; [right; eexists; exact H400|exact Hinst].
  - eapply builtin_bound; [left; exact H408|exact Hinst].
  - eapply builtin_bound; [left; exact H413|exact Hinst].
Qed.

(** X15: the status of an error response is 500, 400, 408, 413 or a code
    the user wrote a rule for. *)
Theorem status_is_a_known_code error :
  In (classify config error)
     ([500; 400; 408; 413]%N ++ map fst (user_rules config)).
Proof.
  unfold classify. destruct (is_Error error); [|left; reflexivity].
  destruct (List.find _ (errorMapping config)) as [rule|] eqn:Hfind;
    [|left; reflexivity].
  apply List.find_some in Hfind as [Hin _].
  apply list_elem_of_In, errorMapping_elem_of in Hin as [->|[->|[->|Huser]]].
  - do 3 right. left. reflexivity.
  - do 2 right. left. reflexivity.
  - right. left. reflexivity.
  - apply in_or_app. right. apply in_map, list_elem_of_In, Huser.
Qed.

End MoreClassifierFacts.

(** X14 (witness): a rule sending validation errors to 422 is written, and
    the status stays at 400. *)
Lemma builtin_errors_status_bound_witness :
  (classify (Demo.config [] (Some [(422%N, [SchemaValidationError])]) None)
            (ThrownError (new_SchemaValidationError "Validation failed" []))
   <= 400)%N.
Proof.
  apply (builtin_errors_status_bound
           (Demo.config [] (Some [(422%N, [SchemaValidationError])]) None)
           (new_SchemaValidationError "Validation failed" [])).
  reflexivity.
Defined.

(** X16: the origin policy never echoes an origin that is not in the
    whitelist: its value is the wildcard, the text [null], or the request's
    origin when a configured whitelist contains it. *)
Theorem origin_echoed_only_when_listed requestOrigin whitelist :
  let value := validateOrigin requestOrigin whitelist in
  value = "*" \/ value = "null"
  \/ exists allowed,
       whitelist = Some allowed /\ requestOrigin = Some value /\ value ∈ allowed.
Proof.
  intros value. unfold value, validateOrigin.
  destruct whitelist as [allowed|]; [|auto].
  destruct requestOrigin as [origin|]; [|auto].
  destruct (Str.nonempty origin); simpl; [|auto].
  destruct (bool_decide (origin ∈ allowed)) eqn:Hin; [|auto].
  apply bool_decide_eq_true in Hin. right; right. eauto.
Qed.

Section ThrownFacts.
Variable rt : Runtime.
Variable builderConfig : HandlerBuilderConfig.
Variable config : HandlerConfig.

(** X17: a stage that throws a value that is not an [Error] is answered
    with status 500 and the message [Unexpected error occurred], whatever
    the rules of the user; the thrown value is not shown. *)
Theorem thrown_value_is_answered_500
    event context now steps0 event' query0 pre createHandler post steps1 query v :
  prelude rt config event = (steps0, Normal (event', query0)) ->
  handlers config = pre ++ createHandler :: post ->
  run_handlers pre 0 query0 event' = (steps1, Resolves query) ->
  stage_fails createHandler query event' (ThrownValue v) ->
  snd (handler rt builderConfig config event context now)
  = {| statusCode := 500;
       result_headers := response_headers builderConfig event;
       result_body :=
         Json.render
           (JsObject [("message", JsString "Unexpected error occurred");
                      ("code", JsNumber 500);
                      ("requestId", JsString (awsRequestId context));
                      ("timestamp", JsString now)]) |}.
Proof.
  intros Hpre Hstages Hrun Hfail.
  destruct (stage_failure_ends_chain rt builderConfig config event context now
              _ _ _ _ _ _ _ _ _ Hpre Hstages Hrun Hfail) as (_ & _ & Herr & _).
  destruct (Herr eq_refl) as [-> _]. reflexivity.
Qed.

(** X18: a chain that delivers [undefined] is never answered with the
    success response: the result has no serialisation, and the response is
    the error response of the [TypeError] raised on measuring it (status 500
    when no rule of the user matches that error). *)
Theorem undefined_result_is_an_error
    event context now steps0 event' query0 steps1 :
  prelude rt config event = (steps0, Normal (event', query0)) ->
  run_handlers (handlers config) 0 query0 event' = (steps1, Resolves JsUndefined) ->
  let failure :=
    ThrownError {| error_class := TypeError;
                   error_message := byteLength_TypeError_message rt;
                   error_errors := None |} in
  snd (handler rt builderConfig config event context now)
  = catch_block builderConfig config event context now failure
  /\ (no_user_rule_matches config failure = true ->
      statusCode (snd (handler rt builderConfig config event context now)) = 500%N).
Proof.
  intros Hpre Hrun failure.
  rewrite (handler_chain _ _ _ _ _ _ _ _ _ _ _ Hpre Hrun).
  split; [reflexivity|]. intros Hno.
  pose proof (classify_builtin _ _ Hno) as Hstatus.
  etransitivity; [exact Hstatus|reflexivity].
Qed.

End ThrownFacts.

(** X17 (witness): a stage whose factory throws a text. *)
Lemma thrown_value_is_answered_500_witness :
  statusCode
    (snd (handler Demo.runtime (Demo.builder None None)
            (Demo.config [fun _ _ => Throw (ThrownValue (JsString "oops"))]
                         (Some [(418%N, [BaseError])]) None)
            (Demo.request "GET" [] None) Demo.context Demo.now))
  = 500%N.
Proof.
  rewrite (thrown_value_is_answered_500
             Demo.runtime (Demo.builder None None)
             (Demo.config [fun _ _ => Throw (ThrownValue (JsString "oops"))]
                          (Some [(418%N, [BaseError])]) None)
             (Demo.request "GET" [] None) Demo.context Demo.now
             [] (Demo.request "GET" [] None) (JsObject [])
             [] (fun _ _ => Throw (ThrownValue (JsString "oops"))) []
             [] (JsObject []) (JsString "oops")
             eq_refl eq_refl eq_refl (or_introl eq_refl)).
  reflexivity.
Defined.

(** X18 (witness): the only stage returns a promise of [undefined]. *)
Lemma undefined_result_is_an_error_witness :
  statusCode
    (snd (handler Demo.runtime (Demo.builder None None)
            (Demo.config [Demo.stage (fun _ => ReturnsPromise (Resolves JsUndefined))]
                         None None)
            (Demo.request "GET" [] None) Demo.context Demo.now))
  = 500%N.
Proof.
  destruct (undefined_result_is_an_error
              Demo.runtime (Demo.builder None None)
              (Demo.config [Demo.stage (fun _ => ReturnsPromise (Resolves JsUndefined))]
                           None None)
              (Demo.request "GET" [] None) Demo.context Demo.now
              [] (Demo.request "GET" [] None) (JsObject [])
              [InvokeStage 0 (JsObject [])] eq_refl eq_refl) as [_ Hstatus].
  apply Hstatus. reflexivity.
Defined.

(** ** Further properties of the validation findings *)

(** X19: the key of a finding.  With a non-empty instance path the key is
    the dotted path and nothing else; at the root it is the first non-empty
    one of the missing property, the additional property and the format, and
    the text [generic] when there is none.  The parent path is never
    prefixed to a property name. *)
Theorem error_key_cases error :
  error_key error =
    match pathSegments error with
    | [] =>
        default "generic"
          (first_truthy [missingProperty (params error);
                         additionalProperty (params error);
                         format (params error)])
    | segments => Str.join "." segments
    end.
Proof.
  unfold error_key. destruct (pathSegments error) as [|segment segments];
    [|reflexivity].
  simpl.
  destruct (missingProperty (params error)) as [[|c s]|]; simpl; try reflexivity;
    destruct (additionalProperty (params error)) as [[|c' s']|]; simpl;
      try reflexivity;
      destruct (format (params error)) as [[|c'' s'']|]; reflexivity.
Qed.

Lemma occurs_app c s1 s2 :
  occurs c (s1 +:+ s2) = occurs c s1 || occurs c s2.
Proof.
  induction s1 as [|c1 s1 IH]; simpl; [reflexivity|].
  rewrite IH, orb_assoc. reflexivity.
Qed.

Lemma split_pieces_free sep s piece :
  In piece (Str.split sep s) -> occurs sep piece = false.
Proof.
  revert piece. induction s as [|c s IH]; simpl; intros piece Hin.
  - destruct Hin as [<-|[]]. reflexivity.
  - destruct (Ascii.eqb_spec c sep) as [->|Hne].
    + destruct Hin as [<-|Hin]; [reflexivity|auto].
    + destruct (Str.split sep s) as [|first pieces].
      * destruct Hin as [<-|[]]. simpl.
        rewrite (proj2 (Ascii.eqb_neq _ _) Hne). reflexivity.
      * destruct Hin as [<-|Hin]; [|apply IH; right; exact Hin].
        simpl. rewrite (proj2 (Ascii.eqb_neq _ _) Hne). simpl.
        apply IH. left. reflexivity.
Qed.

Lemma join_free c sep parts :
  occurs c sep = false ->
  Forall (fun part => occurs c part = false) parts ->
  occurs c (Str.join sep parts) = false.
Proof.
  intros Hsep Hall. induction Hall as [|part parts Hpart Hparts IH]; [reflexivity|].
  simpl. destruct parts as [|next parts]; [exact Hpart|].
  rewrite !occurs_app, Hpart, Hsep, IH. reflexivity.
Qed.

(** X20: the segments of an instance path are non-empty and hold no slash:
    empty segments (a leading, trailing or doubled slash) are dropped.  The
    key of an error with a non-empty path therefore holds no slash. *)
Theorem path_segments_are_clean error :
  Forall (fun segment => segment <> EmptyString /\ occurs "/" segment = false)
         (pathSegments error)
  /\ (pathSegments error <> [] -> occurs "/" (error_key error) = false).
Proof.
  assert (Forall (fun segment => segment <> EmptyString
                                 /\ occurs "/" segment = false)
                 (pathSegments error)) as Hclean.
  { apply Forall_forall. intros segment Hin. unfold pathSegments in Hin.
    apply list_elem_of_In, filter_In in Hin as [Hin Hne].
    split; [intros ->; discriminate|]. eapply split_pieces_free, Hin. }
  split; [exact Hclean|].
  intros Hne. rewrite error_key_positional by exact Hne.
  apply join_free; [reflexivity|].
  eapply Forall_impl; [exact Hclean|]. simpl. tauto.
Qed.

Lemma plain_error_findings error :
  plain_error error ->
  error_findings error
  = [finding (error_key error) (JsString (str_or_empty (message error)))].
Proof.
  intros [Hplain Hmsg]. unfold error_findings.
  destruct (message error) as [[|c m]|]; simpl in Hmsg; try discriminate.
  destruct (String.eqb (keyword error) "errorMessage"),
           (params_errors (params error));
    try reflexivity.
  destruct Hplain; discriminate.
Qed.

(** X21: validator errors outside the [errorMessage] consolidation that
    carry a message yield one finding each, in the order of the validator:
    the key of the error with its message. *)
Theorem plain_errors_one_finding_each errors :
  Forall plain_error errors ->
  formatErrors (Some errors)
  = map (fun error =>
           finding (error_key error) (JsString (str_or_empty (message error))))
        errors.
Proof.
  intros Hall. simpl. induction Hall as [|error errors Hplain _ IH];
    [reflexivity|].
  simpl. rewrite IH, (plain_error_findings _ Hplain). reflexivity.
Qed.

(** X21 (witness): the three findings of the specification's scenario. *)
Lemma plain_errors_one_finding_each_witness :
  map (get_property "key")
      (formatErrors (Some [Demo.required EmptyString "password";
                           Demo.required "/user" "email"]))
  = [JsString "password"; JsString "user"].
Proof.
  rewrite (plain_errors_one_finding_each
             [Demo.required EmptyString "password"; Demo.required "/user" "email"]).
  - reflexivity.
  - repeat constructor.
Defined.

(** X22: an [errorMessage] consolidation whose schema is not an object (a
    single text, say) yields no finding at all, not even from the message
    the error carries. *)
Theorem consolidated_text_schema_yields_nothing error constituents :
  keyword error = "errorMessage" ->
  params_errors (params error) = Some constituents ->
  (forall fields, schema error <> JsObject fields) ->
  error_findings error = [].
Proof.
  intros Hkw Hsome Hschema. unfold error_findings. rewrite Hkw, Hsome. simpl.
  clear Hsome.
  induction constituents as [|constituent constituents IH]; [reflexivity|].
  simpl. rewrite IH.
  destruct (schema error) as [| | | | | |fields]; try reflexivity.
  destruct (Hschema fields eq_refl).
Qed.

(** X22 (witness): a consolidated minimum-length error with a text schema. *)
Lemma consolidated_text_schema_yields_nothing_witness :
  formatErrors
    (Some [{| instancePath := "/password";
              schemaPath := "#/properties/password/errorMessage";
              keyword := "errorMessage";
              params := {| missingProperty := None;
                           additionalProperty := None;
                           format := None;
                           params_errors := Some ["minLength"] |};
              message := Some "Password is too short";
              schema := JsString "Password is too short" |}])
  = [].
Proof.
  unfold formatErrors. cbn [flat_map].
  rewrite (consolidated_text_schema_yields_nothing _ ["minLength"]).
  - reflexivity.
  - reflexivity.
  - reflexivity.
  - discriminate.
Defined.

(** X23: an [errorMessage] consolidation whose schema is an object yields
    one finding per constituent error whose keyword has a truthy entry in
    that object, with that entry as message; constituents without an entry
    are dropped, and the message of the error itself is not used. *)
Theorem consolidated_object_schema_findings error constituents fields :
  keyword error = "errorMessage" ->
  params_errors (params error) = Some constituents ->
  schema error = JsObject fields ->
  error_findings error
  = map (fun constituent =>
           finding (error_key error) (get_property constituent fields))
        (List.filter (fun constituent => truthy (get_property constituent fields))
                     constituents).
Proof.
  intros Hkw Hsome Hschema. unfold error_findings. rewrite Hkw, Hsome, Hschema.
  simpl. clear Hsome.
  induction constituents as [|constituent constituents IH]; [reflexivity|].
  simpl. rewrite IH.
  destruct (truthy (get_property constituent fields)); reflexivity.
Qed.

(** X23 (witness): of two constituents only [minLength] has a text. *)
Lemma consolidated_object_schema_findings_witness :
  error_findings
    {| instancePath := "/password";
       schemaPath := "#/properties/password/errorMessage";
       keyword := "errorMessage";
       params := {| missingProperty := None;
                    additionalProperty := None;
                    format := None;
                    params_errors := Some ["minLength"; "pattern"] |};
       message := Some "ignored";
       schema := JsObject [("minLength", JsString "Password is too short")] |}
  = [finding "password" (JsString "Password is too short")].
Proof.
  rewrite (consolidated_object_schema_findings _ ["minLength"; "pattern"]
             [("minLength", JsString "Password is too short")]);
    reflexivity.
Defined.

(** X24: whatever throws before the chain (the content-type check, parsing,
    validation, a reflector), the handler answers from that error and no
    stage is invoked. *)
Theorem failure_before_chain_runs_no_stage
    rt builderConfig config event context now steps e :
  prelude rt config event = (steps, Throw e) ->
  handler rt builderConfig config event context now
  = (steps, catch_block builderConfig config event context now e)
  /\ stage_indices (fst (handler rt builderConfig config event context now)) = [].
Proof.
  intros Hpre. rewrite (handler_prelude_throws _ _ _ _ _ _ _ _ Hpre).
  split; [reflexivity|]. simpl.
  destruct (prelude_facts _ _ _ _ _ Hpre) as [Hnone _]. exact Hnone.
Qed.

(** X24 (witness): a query reflector that throws. *)
Lemma failure_before_chain_runs_no_stage_witness :
  let failing :=
    {| handlers := [Demo.stage Returns];
       initialBodyReflector := None;
       initialQueryReflector :=
         Some (fun _ => Throw (ThrownError (new_Error "no such path")));
       errorToStatusCodeMapping := None;
       bodySchema := None;
       timeoutMs := None |} in
  let run := handler Demo.runtime (Demo.builder None None) failing
                     (Demo.request "GET" [] None) Demo.context Demo.now in
  fst run = [ReflectQuery] /\ statusCode (snd run) = 500%N.
Proof.
  intros failing run.
  destruct (failure_before_chain_runs_no_stage
              Demo.runtime (Demo.builder None None) failing
              (Demo.request "GET" [] None) Demo.context Demo.now
              [ReflectQuery] (ThrownError (new_Error "no such path")) eq_refl)
    as [Hrun _].
  unfold run. rewrite Hrun. split; reflexivity.
Defined.

(** ** The deadline on the clock *)

Section ClockFacts.
Variable timing : Timing.
Variable deadline : N.
Implicit Types (stages pre post : list IUseCaseInlineFunc) (event : APIGatewayProxyEvent).

Lemma arrives_when_earlier waited settled_at :
  (settled_at < deadline)%N ->
  arrives_in_time timing deadline waited settled_at = true.
Proof.
  intros Hlt. unfold arrives_in_time. apply orb_true_iff. right.
  destruct (timer_first_on_tie timing).
  - apply N.ltb_lt, Hlt.
  - apply N.leb_le. lia.
Qed.

Lemma late_when_later waited settled_at :
  waited <> 0%N -> (deadline < settled_at)%N ->
  arrives_in_time timing deadline waited settled_at = false.
Proof.
  intros Hne Hlt. unfold arrives_in_time. apply orb_false_iff. split.
  - apply N.eqb_neq, Hne.
  - destruct (timer_first_on_tie timing).
    + apply N.ltb_ge. lia.
    + apply N.leb_gt, Hlt.
Qed.

Lemma in_time_bound waited elapsed :
  (elapsed <= deadline)%N ->
  arrives_in_time timing deadline waited (elapsed + waited) = true ->
  (elapsed + waited <= deadline)%N.
Proof.
  intros Hle. unfold arrives_in_time. rewrite orb_true_iff.
  intros [Hzero|Hcmp].
  - apply N.eqb_eq in Hzero. lia.
  - destruct (timer_first_on_tie timing).
    + apply N.ltb_lt in Hcmp. lia.
    + apply N.leb_le in Hcmp. exact Hcmp.
Qed.

(** The pipe delivers no later than the deadline. *)
Lemma delivered_by_deadline stages index elapsed query event steps p delivered_at :
  (elapsed <= deadline)%N ->
  run_handlers_timed timing deadline stages index elapsed query event
  = (steps, p, delivered_at) ->
  (delivered_at <= deadline)%N.
Proof.
  revert index elapsed query steps p delivered_at.
  induction stages as [|createHandler stages IH]; simpl;
    intros index elapsed query steps p delivered_at Hle H.
  - injection H as _ _ <-. exact Hle.
  - set (waited := if hands_promise createHandler query event
                   then latency timing index else 0%N) in *.
    destruct (run_stage createHandler query event) as [v|e|];
      [| |injection H as _ _ <-; lia];
      destruct (arrives_in_time timing deadline waited (elapsed + waited)) eqn:Hin;
      try (injection H as _ _ <-; lia).
    + destruct (run_handlers_timed timing deadline stages (S index)
                  (elapsed + waited) v event) as [[steps' p'] t'] eqn:Hrest.
      injection H as _ _ <-.
      eapply IH; [|exact Hrest]. apply in_time_bound; assumption.
    + injection H as _ _ <-. apply in_time_bound; assumption.
Qed.

Lemma run_handlers_timed_app pre post index elapsed query event steps v delivered_at :
  run_handlers_timed timing deadline pre index elapsed query event
  = (steps, Resolves v, delivered_at) ->
  run_handlers_timed timing deadline (pre ++ post) index elapsed query event
  = (let '(steps', p, t) :=
       run_handlers_timed timing deadline post (index + List.length pre)
                          delivered_at v event in
     (steps ++ steps', p, t)).
Proof.
  revert index elapsed query steps.
  induction pre as [|createHandler pre IH]; simpl;
    intros index elapsed query steps H.
  - injection H as <- <- <-. rewrite Nat.add_0_r.
    destruct (run_handlers_timed timing deadline post index elapsed query event)
      as [[steps' p] t]. reflexivity.
  - destruct (run_stage createHandler query event) as [v0|e|]; try discriminate;
      destruct (arrives_in_time _ _ _ _); try discriminate.
    destruct (run_handlers_timed timing deadline pre (S index) _ v0 event)
      as [[steps0 p0] t0] eqn:Hrest.
    injection H as <- -> ->.
    rewrite (IH _ _ _ _ Hrest), Nat.add_succ_r. simpl.
    destruct (run_handlers_timed timing deadline post _ _ v event) as [[steps' p] t].
    reflexivity.
Qed.

(** A chain whose latencies, summed, stay under the deadline runs as it
    does without a clock. *)
Lemma in_time_run_is_untimed stages index elapsed query event :
  (elapsed + total_latency timing index (List.length stages) < deadline)%N ->
  fst (run_handlers_timed timing deadline stages index elapsed query event)
  = run_handlers stages index query event.
Proof.
  revert index elapsed query.
  induction stages as [|createHandler stages IH]; simpl;
    intros index elapsed query Hsum; [reflexivity|].
  set (waited := if hands_promise createHandler query event
                 then latency timing index else 0%N) in *.
  assert (waited <= latency timing index)%N as Hwait
    by (unfold waited; destruct (hands_promise _ _ _); lia).
  assert (arrives_in_time timing deadline waited (elapsed + waited) = true) as Hin
    by (apply arrives_when_earlier; lia).
  rewrite Hin.
  destruct (run_stage createHandler query event) as [v|e|]; try reflexivity.
  specialize (IH (S index) (elapsed + waited)%N v).
  destruct (run_handlers_timed timing deadline stages (S index)
              (elapsed + waited) v event) as [[steps p] t].
  simpl in *. rewrite <- IH by lia. reflexivity.
Qed.

(** A promise awaited past the deadline: the timer fires, at the deadline,
    and no later stage is invoked. *)
Lemma late_stage_times_out pre createHandler post event query0 steps1 query elapsed :
  run_handlers_timed timing deadline pre 0 0%N query0 event
  = (steps1, Resolves query, elapsed) ->
  hands_promise createHandler query event = true ->
  (deadline < elapsed + latency timing (List.length pre))%N ->
  run_handlers_timed timing deadline (pre ++ createHandler :: post) 0 0%N query0 event
  = (steps1 ++ [InvokeStage (List.length pre) query], Pending, deadline).
Proof.
  intros Hrun Hpromise Hlate.
  pose proof (delivered_by_deadline _ _ _ _ _ _ _ _ (N.le_0_l deadline) Hrun) as Hle.
  rewrite (run_handlers_timed_app _ _ _ _ _ _ _ _ _ Hrun). simpl.
  rewrite Hpromise.
  rewrite late_when_later by lia.
  destruct (run_stage createHandler query event); reflexivity.
Qed.

End ClockFacts.



